(** * jest-worker: the thread backend (NodeThreadsWorker.js)

    A shallow embedding of [ExperimentalWorker], the worker of the farm that
    runs calls on a [worker_threads] thread, and the properties of its retry
    counter, of its message dispatch and of the errors it hands back to the
    farm.

    The class is stateful JavaScript: its methods read and write the fields
    of [this], call the callbacks the farm passed to [send], post messages to
    the thread and may throw.  The embedding is a state and exception monad
    over a [world]: the fields of the object, the number of threads created so
    far, and the trace of the calls that leave the object.

    What the callbacks do is the farm's business.  A callback that calls the
    worker back (the farm sends the next call of its queue from the
    completion hook) does so where the method that called it has nothing left
    to do, so it is the next call of a run.  Every thread the worker created
    keeps its listeners, so messages and exits reach [onMessage] and [onExit]
    whichever thread they come from. *)

From stdpp Require Import base option strings pretty gmap list.
From Stdlib Require Import ZArith Lia.

Local Open Scope string_scope.
Local Open Scope Z_scope.

(** ** JavaScript values *)

Module JS.

(** Numbers.  The only arithmetic of the class is [this._retries++] and
    [this._retries > maxRetries], on a counter and on a count of retries:
    [Fin z] is the double with the integer value [z].  Doubles are exact on
    integers up to [2^53]; there [x + 1] rounds back to [x]. *)
Inductive number :=
| NaN
| Infinity (negative : bool)
| Fin (z : Z).

Definition MAX_EXACT : Z := 2 ^ 53.

(** [x + 1] on doubles: exact between [-2^53] and [2^53], which a counter
    that starts at [0] never leaves; at [2^53] the sum rounds back. *)
Definition add1 (x : number) : number :=
  match x with
  | NaN => NaN
  | Infinity s => Infinity s
  | Fin z => if z <? MAX_EXACT then Fin (z + 1) else Fin z
  end.

(** [x > y] on numbers: false as soon as one side is [NaN]. *)
Definition gt (x y : number) : bool :=
  match x, y with
  | NaN, _ | _, NaN => false
  | Infinity true, _ => false
  | Infinity false, Infinity false => false
  | Infinity false, _ => true
  | Fin _, Infinity s => s
  | Fin a, Fin b => b <? a
  end.

(** Functions reachable through [global]: the native error constructors,
    whose [new] is fixed by the language, and whatever else the host has
    put on the global object. *)
Inductive func :=
| NativeError (name : string)
| HostFunction (name : string).

(** Values.  An object is its class (the name of the constructor that built
    it) and its own properties; payload objects arrive over the thread's
    message channel, so they are plain data. *)
Inductive value :=
| VUndefined
| VNull
| VBool (b : bool)
| VNum (n : number)
| VStr (s : string)
| VObject (o : object)
| VFunction (f : func)
with object :=
| Obj (class : string) (props : gmap string value).

Definition class_of (o : object) : string := let 'Obj c _ := o in c.
Definition props_of (o : object) : gmap string value := let 'Obj _ p := o in p.

(** [typeof v] *)
Definition typeof (v : value) : string :=
  match v with
  | VUndefined => "undefined"
  | VNull => "object"
  | VBool _ => "boolean"
  | VNum _ => "number"
  | VStr _ => "string"
  | VObject _ => "object"
  | VFunction _ => "function"
  end.

(** [v != null]: loose inequality, false for [null] and [undefined] only. *)
Definition not_nullish (v : value) : bool :=
  match v with
  | VUndefined | VNull => false
  | _ => true
  end.

(** [o[k]] on an object: the own property, [undefined] when absent. *)
Definition get (o : object) (k : string) : value :=
  default VUndefined (props_of o !! k).

(** The own enumerable properties of a value, which the class asks for
    under [typeof v === 'object'] only: those of an object, all enumerable
    since payloads are data. *)
Definition fields_of (v : value) : gmap string value :=
  match v with
  | VObject o => props_of o
  | _ => ∅
  end.

(** The own property [k] of [o] made or replaced. *)
Definition set (k : string) (v : value) (o : object) : object :=
  Obj (class_of o) (<[k := v]> (props_of o)).

(** [o[k] = v] on an ordinary object that can be extended, whose properties
    can be written and whose prototypes are as the language makes them, an
    error that a native error constructor built for one: the own property
    [k] is made or replaced.  The one key that is no property to write is
    ['__proto__'], which [Object.prototype] answers with a setter: the
    assignment makes no own property, and the prototype it may put in place
    of the old one is not part of an [object] here. *)
Definition assign_ordinary (k : string) (v : value) (o : object) : object :=
  if bool_decide (k = "__proto__") then o else set k v o.

(** [a[i]] on an array: [undefined] past the end. *)
Definition index (a : list value) (i : nat) : value :=
  default VUndefined (a !! i).

(** The result of running a statement: it completes or it throws. *)
Inductive completion (A : Type) :=
| Normal (a : A)
| Throw (exn : value).
Arguments Normal {A} a.
Arguments Throw {A} exn.

(** Statements that touch no state, one after the other: the first that
    throws ends them. *)
Global Instance completion_ret : MRet completion := λ A a, Normal a.

Global Instance completion_bind : MBind completion := λ A B k c,
  match c with
  | Normal a => k a
  | Throw exn => Throw exn
  end.

(** What the embedding takes from the JavaScript host.
    - [ToString_host]: the string a value that is not a string converts to,
      in a property key, in [new Error(v)] and in ['...' + v];
    - [global_host]: the properties of the global object other than the
      native error constructors;
    - [construct_host]: [new F(arg)] for a function [F] that is not a native
      error constructor, which returns an object or throws; the object is
      told by the name of its class and its own properties, a function
      that [new Function] returns like any other;
    - [assign_host]: [o[k] = v], in strict code, on the object [o] that
      [new F(...)] returned for such an [F].  What it does is up to that
      object: a [Date] takes the property as an ordinary object does, a
      [String] throws a [TypeError] for its indices and its [length], which
      are read-only, a typed array converts what it stores, a setter does
      with the object what it likes;
    - [for_in_host]: the order in which [for (const key in o)] visits the
      keys of [o], each of them once: the integer keys in ascending order,
      then the others in the order of their creation, which the map of an
      object does not record;
    - [captureStackTrace]: the text of [stack] on an [Error] built here. *)
Class Host := {
  ToString_host : value → string;
  global_host : string → value;
  construct_host : string → value → completion object;
  assign_host : string → string → value → object → completion object;
  for_in_host : object → list string;
  for_in_host_keys : ∀ o, for_in_host o ≡ₚ (map_to_list (props_of o)).*1;
  captureStackTrace : nat → string;
}.

Section WithHost.
Context {host : Host}.

Definition ToString (v : value) : string :=
  match v with
  | VStr s => s
  | _ => ToString_host v
  end.

Definition native_errors : list string :=
  ["Error"; "EvalError"; "RangeError"; "ReferenceError"; "SyntaxError";
   "TypeError"; "URIError"].

(** The keys [for (const key in v)] visits, which the class asks for under
    [typeof v === 'object'] only. *)
Definition for_in_keys (v : value) : list string :=
  match v with
  | VObject o => for_in_host o
  | _ => []
  end.

(** [global[k]] *)
Definition global (k : value) : value :=
  let key := ToString k in
  if bool_decide (key ∈ native_errors) then VFunction (NativeError key)
  else global_host key.

(** [new F(arg)].  A native error constructor sets [message] to the string
    of its argument unless the argument is [undefined]; the [stack] it
    records is kept out of the object here, every use below assigns or reads
    it explicitly. *)
Definition construct (F : func) (arg : value) : completion object :=
  match F with
  | NativeError name =>
      Normal (Obj name match arg with
                       | VUndefined => ∅
                       | _ => {[ "message" := VStr (ToString arg) ]}
                       end)
  | HostFunction name => construct_host name arg
  end.

(** [o[k] = v], in strict code, on the object [o] that [new F(...)]
    returned. *)
Definition assign (F : func) (k : string) (v : value) (o : object) : completion object :=
  match F with
  | NativeError _ => Normal (assign_ordinary k v o)
  | HostFunction name => assign_host name k v o
  end.

(** The functions whose objects take every assignment as an ordinary
    object does: the native error constructors, and the functions for
    which the host says so. *)
Definition plain_assignments (F : func) : Prop :=
  match F with
  | NativeError _ => True
  | HostFunction name =>
      ∀ k v o, assign_host name k v o = Normal (assign_ordinary k v o)
  end.

End WithHost.

End JS.

Import JS.

(** ** The message tags of [../types] *)

(** Modelled from the spec: the tag constants that [NodeThreadsWorker.js]
    imports from [../types], a module that is not among the sources.  The
    message format is a discriminated one, tagged by kind: the three parent
    tags [onMessage] switches on are numbers, different from one another. *)
Class MessageTags := {
  CHILD_MESSAGE_INITIALIZE : Z;
  PARENT_MESSAGE_OK : Z;
  PARENT_MESSAGE_CLIENT_ERROR : Z;
  PARENT_MESSAGE_SETUP_ERROR : Z;
  client_error_not_ok : PARENT_MESSAGE_CLIENT_ERROR ≠ PARENT_MESSAGE_OK;
  setup_error_not_ok : PARENT_MESSAGE_SETUP_ERROR ≠ PARENT_MESSAGE_OK;
  setup_error_not_client_error :
    PARENT_MESSAGE_SETUP_ERROR ≠ PARENT_MESSAGE_CLIENT_ERROR;
}.

(** [response[0] === TAG] for a numeric constant [TAG]. *)
Definition is_tag (v : value) (tag : Z) : bool :=
  match v with
  | VNum (Fin z) => bool_decide (z = tag)
  | _ => false
  end.

(** ** The object and its surroundings *)

(** [WorkerOptions], as far as the class reads it. *)
Record WorkerOptions := {
  forkOptions : value;
  maxRetries : number;
  setupArgs : value;
  workerId : value;
  workerPath : value;
}.

(** The callbacks the farm passes to [send]; the class only stores and calls
    them, so they are told apart by a name. *)
Inductive OnStart := OnStartFn (id : nat).
Inductive OnEnd := OnEndFn (id : nat).

Global Instance OnStart_eq_dec : EqDecision OnStart.
Proof. solve_decision. Defined.
Global Instance OnEnd_eq_dec : EqDecision OnEnd.
Proof. solve_decision. Defined.

(** The fields of an [ExperimentalWorker].  A field that no statement has
    assigned yet is [undefined], here [None]; [_worker] is the thread, named
    by the order in which the threads were created. *)
Record ExperimentalWorker := {
  _worker : option nat;
  _options : WorkerOptions;
  _onProcessEnd : option OnEnd;
  _retries : option number;
}.

(** The calls that leave the object, in program order. *)
Inductive effect :=
| NewWorker (thread : nat) (JEST_WORKER_ID : value) (forkOptions : value)
| On (thread : nat) (event : string)
| PostMessage (thread : nat) (message : list value)
| OnProcessStart (callback : OnStart) (self : ExperimentalWorker)
| OnProcessEnd (callback : OnEnd) (error : value) (result : value).

Record world := {
  this : ExperimentalWorker;
  threads : nat;
  trace : list effect;
}.

(** Statements: they read and write the world and complete or throw; what a
    statement did before it threw stays done. *)
Definition M (A : Type) : Type := world → completion A * world.

Global Instance M_ret : MRet M := λ A a w, (Normal a, w).

Global Instance M_bind : MBind M := λ A B k m w,
  match m w with
  | (Normal a, w') => k a w'
  | (Throw e, w') => (Throw e, w')
  end.

Definition throw {A} (exn : value) : M A := λ w, (Throw exn, w).

(** A statement that touches no state. *)
Definition lift {A} (c : completion A) : M A := λ w, (c, w).

Definition read {A} (f : ExperimentalWorker → A) : M A :=
  λ w, (Normal (f (this w)), w).

Definition write (f : ExperimentalWorker → ExperimentalWorker) : M unit :=
  λ w, (Normal tt, {| this := f (this w); threads := threads w; trace := trace w |}).

Definition emit (e : effect) : M unit :=
  λ w, (Normal tt, {| this := this w; threads := threads w; trace := trace w ++ [e] |}).

Definition set_worker (t : nat) (o : ExperimentalWorker) : ExperimentalWorker :=
  {| _worker := Some t; _options := _options o;
     _onProcessEnd := _onProcessEnd o; _retries := _retries o |}.

Definition set_onProcessEnd (e : OnEnd) (o : ExperimentalWorker) : ExperimentalWorker :=
  {| _worker := _worker o; _options := _options o;
     _onProcessEnd := Some e; _retries := _retries o |}.

Definition set_retries (n : number) (o : ExperimentalWorker) : ExperimentalWorker :=
  {| _worker := _worker o; _options := _options o;
     _onProcessEnd := _onProcessEnd o; _retries := Some n |}.

(** [ToNumber] of the field [_retries]: [undefined] is [NaN]. *)
Definition ToNumber (field : option number) : number := default NaN field.

Section Worker.
Context {host : Host} {tags : MessageTags}.

(** A [TypeError] thrown by the runtime or by [throw new TypeError(...)]. *)
Definition TypeError (message : string) : value :=
  VObject (Obj "TypeError" {[ "message" := VStr message ]}).

(** [new Worker(path, {..., workerData})]: a fresh thread, whose data carry
    the worker id and the fork options.  The thread is taken to start: the
    data are cloned for it, which fails on what cannot be cloned, a function
    for one. *)
Definition new_Worker : M nat :=
  λ w, let t := threads w in
       (Normal t,
        {| this := this w; threads := S t;
           trace := trace w ++ [NewWorker t (workerId (_options (this w)))
                                            (forkOptions (_options (this w)))] |}).

(** [this._worker.on(event, ...)] *)
Definition worker_on (event : string) : M unit :=
  t ← read _worker;
  match t with
  | Some t => emit (On t event)
  | None => throw (TypeError "Cannot read property 'on' of undefined")
  end.

(** [this._worker.postMessage(message)].  The trace records the call; the
    thread is taken to accept the message, which it clones, and so refuses
    when it holds what cannot be cloned. *)
Definition worker_postMessage (message : list value) : M unit :=
  t ← read _worker;
  match t with
  | Some t => emit (PostMessage t message)
  | None => throw (TypeError "Cannot read property 'postMessage' of undefined")
  end.

(** [this._onProcessEnd(error, result)] *)
Definition call_onProcessEnd (error result : value) : M unit :=
  f ← read _onProcessEnd;
  match f with
  | Some f => emit (OnProcessEnd f error result)
  | None => throw (TypeError "this._onProcessEnd is not a function")
  end.

(** [error[k] = v], for the object [error] that [new Ctor(...)] returned;
    what is no function has built none. *)
Definition put (Ctor : value) (k : string) (v : value) (error : object) : completion object :=
  match Ctor with
  | VFunction F => assign F k v error
  | _ => Normal (assign_ordinary k v error)
  end.

(** [for (const key in extra) error[key] = extra[key];] for the object
    [error] that [new Ctor(...)] returned: an assignment that throws ends
    the loop. *)
Definition copy_fields (Ctor : value) (extra : value) (error : object) : completion object :=
  foldl (λ error key,
           error ← error;
           put Ctor key (default VUndefined (fields_of extra !! key)) error)
    (Normal error) (for_in_keys extra).

(** [new Error(message)] with a string: the object, without its [stack]. *)
Definition new_Error (message : string) : object :=
  Obj "Error" {[ "message" := VStr message ]}.

(** [error.name] of an error object: inherited from the prototype of its
    class. *)
Definition name_of (error : object) : string := class_of error.

(** [new Ctor(arg)] for a value [Ctor]. *)
Definition new (Ctor : value) (arg : value) : M object :=
  match Ctor with
  | VFunction F =>
      match construct F arg with
      | Normal o => mret o
      | Throw exn => throw exn
      end
  | _ => throw (TypeError "Ctor is not a constructor")
  end.

(** The body of the [if] in the [CLIENT_ERROR] case: the error rebuilt from
    the message and its payload [extra]. *)
Definition rebuild_error (response : list value) (extra : value) : M value :=
  let NativeCtor := global (index response 1) in
  let Ctor := if bool_decide (typeof NativeCtor = "function") then NativeCtor
              else VFunction (NativeError "Error") in
  error ← new Ctor (index response 2);
  error ← lift (put Ctor "type" (index response 1) error);
  error ← lift (put Ctor "stack" (index response 3) error);
  error ← lift (copy_fields Ctor extra error);
  mret (VObject error).

(** [error != null && typeof error === 'object'] *)
Definition is_object (error : value) : bool :=
  not_nullish error && bool_decide (typeof error = "object").

(** The [switch] tests its cases in order. *)
Definition onMessage (response : list value) : M unit :=
  let tag := index response 0 in
  if is_tag tag PARENT_MESSAGE_OK then
    call_onProcessEnd VNull (index response 1)
  else if is_tag tag PARENT_MESSAGE_CLIENT_ERROR then
    let error := index response 4 in
    error ← (if is_object error then rebuild_error response error else mret error);
    call_onProcessEnd error VNull
  else if is_tag tag PARENT_MESSAGE_SETUP_ERROR then
    let error :=
      new_Error ("Error when calling setup: " +:+ ToString (index response 2)) in
    let error := set "type" (index response 1) error in
    let error := set "stack" (index response 3) error in
    call_onProcessEnd (VObject error) VNull
  else
    throw (TypeError ("Unexpected response from worker: " +:+ ToString tag)).

Definition initialize : M unit :=
  t ← new_Worker;
  write (set_worker t);;
  worker_on "message";;
  worker_on "exit";;
  options ← read _options;
  worker_postMessage
    [VNum (Fin CHILD_MESSAGE_INITIALIZE); VBool false;
     workerPath options; setupArgs options];;
  retries ← read _retries;
  write (set_retries (add1 (ToNumber retries)));;
  retries ← read _retries;
  options ← read _options;
  if gt (ToNumber retries) (maxRetries options) then
    let error := new_Error "Call retries were exceeded" in
    stack ← (λ w, (Normal (captureStackTrace (threads w)), w));
    onMessage
      [VNum (Fin PARENT_MESSAGE_CLIENT_ERROR);
       VStr (name_of error);
       get error "message";
       VStr stack;
       VObject (Obj "Object" {[ "type" := VStr "WorkerError" ]})]
  else mret tt.

(** [exitCode !== 0] fails for the number [0] only. *)
Definition onExit (exitCode : value) : M unit :=
  if negb (is_tag exitCode 0) then initialize else mret tt.

Definition send (request : list value) (onProcessStart : OnStart)
    (onProcessEnd : OnEnd) : M unit :=
  self ← read id;
  emit (OnProcessStart onProcessStart self);;
  write (set_onProcessEnd onProcessEnd);;
  write (set_retries (Fin 0));;
  worker_postMessage request.

Definition getWorkerId : M value :=
  options ← read _options;
  mret (workerId options).

(** [new ExperimentalWorker(options)], in a process that has created
    [threads] threads before. *)
Definition constructor (options : WorkerOptions) (threads : nat) : completion unit * world :=
  initialize
    {| this := {| _worker := None; _options := options;
                  _onProcessEnd := None; _retries := None |};
       threads := threads; trace := [] |}.

End Worker.

(** ** Runs *)

(** The calls the farm and the threads make on the object. *)
Inductive call :=
| CallInitialize
| CallOnMessage (response : list value)
| CallOnExit (exitCode : value)
| CallSend (request : list value) (onProcessStart : OnStart) (onProcessEnd : OnEnd).

Section Runs.
Context {host : Host} {tags : MessageTags}.

Definition perform (c : call) : M unit :=
  match c with
  | CallInitialize => initialize
  | CallOnMessage response => onMessage response
  | CallOnExit exitCode => onExit exitCode
  | CallSend request onProcessStart onProcessEnd =>
      send request onProcessStart onProcessEnd
  end.

(** The calls one after the other; a call that throws ends the run. *)
Fixpoint run (cs : list call) : M unit :=
  match cs with
  | [] => mret tt
  | c :: cs => perform c;; run cs
  end.

(** The message [initialize] hands to [onMessage] once the retries are
    exceeded, and the error [onMessage] makes of it. *)
Definition retries_exceeded (stack : string) : list value :=
  [VNum (Fin PARENT_MESSAGE_CLIENT_ERROR); VStr "Error";
   VStr "Call retries were exceeded"; VStr stack;
   VObject (Obj "Object" {[ "type" := VStr "WorkerError" ]})].

Definition retries_exceeded_error (stack : string) : object :=
  Obj "Error"
    (<["type" := VStr "WorkerError"]>
       (<["stack" := VStr stack]>
          {[ "message" := VStr "Call retries were exceeded" ]})).

(** The world after the part of [initialize] that every call of it runs: a
    new thread with its two listeners, [INITIALIZE] posted to it, the counter
    incremented. *)
Definition respawned (w : world) : world :=
  let t := threads w in
  let options := _options (this w) in
  {| this := set_retries (add1 (ToNumber (_retries (this w)))) (set_worker t (this w));
     threads := S t;
     trace := trace w ++
       [NewWorker t (workerId options) (forkOptions options);
        On t "message"; On t "exit";
        PostMessage t [VNum (Fin CHILD_MESSAGE_INITIALIZE); VBool false;
                       workerPath options; setupArgs options]] |}.

(** The error the [SETUP_ERROR] case builds. *)
Definition setup_error (response : list value) : object :=
  Obj "Error"
    (<["stack" := index response 3]>
       (<["type" := index response 1]>
          {[ "message" :=
               VStr ("Error when calling setup: " +:+ ToString (index response 2)) ]})).

(** The constructor the [CLIENT_ERROR] case calls: the global function
    named by the kind, [Error] when there is none. *)
Definition Ctor_of (response : list value) : func :=
  match global (index response 1) with
  | VFunction F => F
  | _ => NativeError "Error"
  end.

(** What the [CLIENT_ERROR] case makes of the object [base] that the
    constructor returned: the error, or what the first assignment that
    throws has thrown. *)
Definition rebuilt (response : list value) (extra : value) (base : object) : completion object :=
  let Ctor := VFunction (Ctor_of response) in
  error ← put Ctor "type" (index response 1) base;
  error ← put Ctor "stack" (index response 3) error;
  copy_fields Ctor extra error.

End Runs.

(** A respawn before any call was sent: [initialize] called directly, or a
    thread that exits. *)
Definition respawn_call (exit : option value) : call :=
  match exit with
  | None => CallInitialize
  | Some exitCode => CallOnExit exitCode
  end.

(** ** What a trace shows *)

Definition is_end (ef : effect) : bool :=
  match ef with OnProcessEnd _ _ _ => true | _ => false end.

Definition is_spawn (ef : effect) : bool :=
  match ef with NewWorker _ _ _ => true | _ => false end.

(** The calls of one completion hook, and of one dispatch hook. *)
Definition is_end_of (e : OnEnd) (ef : effect) : bool :=
  match ef with
  | OnProcessEnd e' _ _ => bool_decide (e' = e)
  | _ => false
  end.

Definition is_start_of (s : OnStart) (ef : effect) : bool :=
  match ef with
  | OnProcessStart s' _ => bool_decide (s' = s)
  | _ => false
  end.

Definition count (p : effect → bool) (tr : list effect) : nat :=
  length (List.filter p tr).

(** The world after the effects [es]. *)
Definition emits (es : list effect) (w : world) : world :=
  {| this := this w; threads := threads w; trace := trace w ++ es |}.

(** The calls that reach [initialize], the calls of [onMessage], the calls
    of [send]. *)
Definition is_respawn (c : call) : bool :=
  match c with
  | CallInitialize => true
  | CallOnExit exitCode => negb (is_tag exitCode 0)
  | _ => false
  end.

Definition is_message (c : call) : bool :=
  match c with CallOnMessage _ => true | _ => false end.

Definition is_send (c : call) : bool :=
  match c with CallSend _ _ _ => true | _ => false end.

Definition respawns (cs : list call) : nat := length (List.filter is_respawn cs).
Definition messages (cs : list call) : nat := length (List.filter is_message cs).

(** ** A concrete host, and the tags of jest *)

(** A host with three global functions that are not error constructors:
    [Date], whose [new] returns a date, an object with no property of its
    own, whatever it is given, [Promise], whose [new] throws unless it is
    given a function, and [String], whose [new] returns a string object,
    with the characters of the string under their indices and its [length],
    none of which can be written.  Integers print in decimal (as they do
    below [10^21]) and plain objects as ['[object Object]'].  The payloads
    below have one field at most, so any order of their keys will do. *)
Definition node_ToString (v : value) : string :=
  match v with
  | VUndefined => "undefined"
  | VNull => "null"
  | VBool true => "true"
  | VBool false => "false"
  | VNum NaN => "NaN"
  | VNum (Infinity false) => "Infinity"
  | VNum (Infinity true) => "-Infinity"
  | VNum (Fin z) => pretty z
  | VStr s => s
  | VObject _ => "[object Object]"
  | VFunction _ => "function () { [native code] }"
  end.

(** The own properties of [new String(s)]. *)
Definition String_props (s : string) : gmap string value :=
  <["length" := VNum (Fin (Z.of_nat (String.length s)))]>
    (list_to_map
       (imap (λ i c, (pretty i, VStr (String c EmptyString)))
          (String.list_ascii_of_string s))).

(** The keys of a string object that cannot be written: its [length] and
    the indices below it. *)
Definition String_read_only (o : object) (k : string) : bool :=
  match get o "length" with
  | VNum (Fin n) => bool_decide (k ∈ "length" :: (pretty <$> seq 0 (Z.to_nat n)))
  | _ => false
  end.

Definition node : Host := {|
  ToString_host := node_ToString;
  global_host k :=
    if bool_decide (k ∈ ["Date"; "Promise"; "String"]) then VFunction (HostFunction k)
    else VUndefined;
  construct_host F arg :=
    if bool_decide (F = "Promise") then
      match arg with
      | VFunction _ => Normal (Obj "Promise" ∅)
      | _ => Throw (VObject (Obj "TypeError"
               {[ "message" :=
                    VStr ("Promise resolver " +:+ node_ToString arg
                          +:+ " is not a function") ]}))
      end
    else if bool_decide (F = "String") then
      Normal (Obj "String" (String_props (node_ToString arg)))
    else Normal (Obj F ∅);
  assign_host F k v o :=
    if bool_decide (F = "String") && String_read_only o k then
      Throw (TypeError ("Cannot assign to read only property '" +:+ k
                        +:+ "' of object '[object String]'"))
    else Normal (assign_ordinary k v o);
  for_in_host o := (map_to_list (props_of o)).*1;
  for_in_host_keys o := reflexivity _;
  captureStackTrace _ := "Error: Call retries were exceeded";
|}.

Definition jest_tags : MessageTags := {|
  CHILD_MESSAGE_INITIALIZE := 0;
  PARENT_MESSAGE_OK := 0;
  PARENT_MESSAGE_CLIENT_ERROR := 1;
  PARENT_MESSAGE_SETUP_ERROR := 2;
  client_error_not_ok := ltac:(discriminate);
  setup_error_not_ok := ltac:(discriminate);
  setup_error_not_client_error := ltac:(discriminate);
|}.

(** A worker with [maxRetries], just built, and the same after a first
    [send]. *)
Definition options_of (maxRetries : number) : WorkerOptions :=
  {| forkOptions := VUndefined; maxRetries := maxRetries; setupArgs := VUndefined;
     workerId := VNum (Fin 1); workerPath := VStr "/module.js" |}.

Definition a_request : list value :=
  [VNum (Fin 1); VBool false; VStr "method"; VUndefined].

Definition fresh (maxRetries : number) : world :=
  (constructor (host := node) (tags := jest_tags) (options_of maxRetries) 0).2.

Definition busy (maxRetries : number) : world :=
  (send a_request (OnStartFn 0) (OnEndFn 0) (fresh maxRetries)).2.

(** ** Histories of a worker *)

Section Histories.
Context {host : Host} {tags : MessageTags}.

(** The world after the calls [cs], whether or not one of them threw: what
    a method did before it threw stays done, and the farm and the threads
    go on calling. *)
Definition after (cs : list call) (w : world) : world :=
  foldl (λ w c, (perform c w).2) w cs.

(** The worker that [new ExperimentalWorker(options)] built, after the
    calls [cs]. *)
Definition history (options : WorkerOptions) (n : nat) (cs : list call) : world :=
  after cs (constructor options n).2.

(** The message [initialize] posts. *)
Definition INITIALIZE (options : WorkerOptions) : list value :=
  [VNum (Fin CHILD_MESSAGE_INITIALIZE); VBool false;
   workerPath options; setupArgs options].

(** The messages that the calls [cs] ask for, on a worker whose thread is
    [t], the last one created: a respawn has [INITIALIZE] for the thread it
    creates, a [send] has its request for the thread of the worker, and
    the other calls have none. *)
Fixpoint posts_of (options : WorkerOptions) (t : nat) (cs : list call) :
    list (nat * list value) :=
  match cs with
  | [] => []
  | c :: cs =>
      if is_respawn c then (S t, INITIALIZE options) :: posts_of options (S t) cs
      else match c with
           | CallSend request _ _ => (t, request) :: posts_of options t cs
           | _ => posts_of options t cs
           end
  end.

End Histories.

(** What a trace shows of the threads: those created, the listeners put on
    them, the messages posted to them; and the start callbacks called. *)
Definition spawned (tr : list effect) : list nat :=
  omap (λ ef, match ef with NewWorker t _ _ => Some t | _ => None end) tr.

Definition listeners (tr : list effect) : list (nat * string) :=
  omap (λ ef, match ef with On t event => Some (t, event) | _ => None end) tr.

Definition posted (tr : list effect) : list (nat * list value) :=
  omap (λ ef, match ef with PostMessage t message => Some (t, message) | _ => None end) tr.

Definition started (tr : list effect) : list OnStart :=
  omap (λ ef, match ef with OnProcessStart s _ => Some s | _ => None end) tr.

(** The start callbacks of the calls of [send] among [cs]. *)
Definition start_hooks (cs : list call) : list OnStart :=
  omap (λ c, match c with CallSend _ s _ => Some s | _ => None end) cs.

(** Data that a thread can be given: no function, nothing that holds one,
    and no object other than a plain one.  [new Worker] and [postMessage]
    clone what they are given, and throw on what cannot be cloned. *)
Inductive plain_data : value → Prop :=
| data_undefined : plain_data VUndefined
| data_null : plain_data VNull
| data_bool b : plain_data (VBool b)
| data_num n : plain_data (VNum n)
| data_str s : plain_data (VStr s)
| data_object props :
    (∀ k v, props !! k = Some v → plain_data v) →
    plain_data (VObject (Obj "Object" props)).

Definition is_post (ef : effect) : bool :=
  match ef with PostMessage _ _ => true | _ => false end.

Definition is_listener (ef : effect) : bool :=
  match ef with On _ _ => true | _ => false end.

Definition is_start (ef : effect) : bool :=
  match ef with OnProcessStart _ _ => true | _ => false end.

Definition sends (cs : list call) : nat := length (List.filter is_send cs).

(** The counter and the hook go together: no hook and a counter that is no
    number, or a hook and a count between [0] and [2^53]. *)
Definition counter_matches_hook (o : ExperimentalWorker) : Prop :=
  (_onProcessEnd o = None ∧ _retries o = Some NaN) ∨
  (∃ e r, _onProcessEnd o = Some e ∧ _retries o = Some (Fin r) ∧ 0 ≤ r ≤ MAX_EXACT).

(** The completion hook of the last [send] among the calls [cs]. *)
Definition last_hook (cs : list call) : option OnEnd :=
  foldl (λ hook c, match c with CallSend _ _ e => Some e | _ => hook end) None cs.

(** ** jest-cli: the search for test files (SearchSource.js)

    [SearchSource] decides which of the files of a project are tests: a
    path is one when it passes the four cases built from the configuration,
    and [_filterTestPathsWithStats] counts, case by case, how many of the
    paths it was given pass. *)

Module SearchSource.

(** What is taken from the host and from the modules the file imports:
    regular expressions ([new RegExp(source)], taken to be well formed, and
    [regex.test(path)] on an expression without the [g] and [y] flags),
    [path.sep] and [path.resolve] on two arguments, [escapePathForRegex] of
    [jest-regex-util], [micromatch(list, globs, {dot: true})],
    [testPathPatternToRegExp] and [realpath(process.cwd())]. *)
Class Env := {
  Regex : Type;
  RegExp : string → Regex;
  test : Regex → string → bool;
  path_sep : string;
  path_resolve : string → string → string;
  escapePathForRegex : string → string;
  micromatch : list string → list string → list string;
  testPathPatternToRegExp : string → Regex;
  realpath_cwd : string;
}.

(** The configuration, as far as the class reads it. *)
Record Config := {
  roots : list string;
  testMatch : option (list string);
  testPathIgnorePatterns : list string;
  testRegex : list string;
}.

(** [Context]: the configuration and the files [hasteFS.getAllFiles()]
    lists. *)
Record Context := {
  config : Config;
  getAllFiles : list string;
}.

Record Test := {
  context : Context;
  duration : value;
  path : string;
}.

Record SearchResult := {
  stats : option (gmap string number);
  tests : list Test;
  total : option number;
}.

(** [array.join(separator)] on strings. *)
Fixpoint join (separator : string) (array : list string) : string :=
  match array with
  | [] => ""
  | [x] => x
  | x :: rest => x +:+ separator +:+ join separator rest
  end.

(** The truth of a number: [NaN] and [0] are false. *)
Definition truthy (n : number) : bool :=
  match n with
  | NaN | Fin 0 => false
  | _ => true
  end.

(** The two assignments of the reducer to [data.stats[key]]:
    [data.stats[key] = ++data.stats[key] || 1] for a path that passes the
    case (the increment writes first), and
    [data.stats[key] = data.stats[key] || 0] for one that does not. *)
Definition count_pass (key : string) (stats : gmap string number) : gmap string number :=
  let incremented := add1 (ToNumber (stats !! key)) in
  let stats := <[key := incremented]> stats in
  <[key := if truthy incremented then incremented else Fin 1]> stats.

Definition count_fail (key : string) (stats : gmap string number) : gmap string number :=
  <[key := match stats !! key with
           | Some n => if truthy n then n else Fin 0
           | None => Fin 0
           end]> stats.

(** [testCasesKeys.reduce((flag, key) => ..., true)] for one path: every
    case is tried, whatever the flag. *)
Definition try_cases (testCases : list (string * (string → bool))) (path : string)
    (stats : gmap string number) : bool * gmap string number :=
  foldl (λ '(flag, stats) '(key, testCase),
           if testCase path : bool then (flag && true, count_pass key stats)
           else (false, count_fail key stats))
        (true, stats) testCases.

(** [allPaths.filter(test => ...)], with the statistics the callback
    writes. *)
Fixpoint filter_paths (testCases : list (string * (string → bool)))
    (allPaths : list Test) (stats : gmap string number)
    : list Test * gmap string number :=
  match allPaths with
  | [] => ([], stats)
  | test :: allPaths =>
      let '(flag, stats) := try_cases testCases (path test) stats in
      let '(tests, stats) := filter_paths testCases allPaths stats in
      (if flag then test :: tests else tests, stats)
  end.

Section WithEnv.
Context {env : Env}.

Definition globsToMatcher (globs : option (list string)) : string → bool :=
  match globs with
  | None => λ _, true
  | Some globs =>
      if bool_decide (length globs = 0%nat) then λ _, true
      else λ path, bool_decide (0 < length (micromatch [path] globs))%nat
  end.

Definition regexToMatcher (testRegex : list string) : string → bool :=
  if bool_decide (length testRegex = 0%nat) then λ _, true
  else λ path, existsb (λ testRegex, test (RegExp testRegex) path) testRegex.

Definition toTests (context : Context) (tests : list string) : list Test :=
  map (λ path, {| context := context; duration := VUndefined; path := path |}) tests.

(** The fields of a [SearchSource]; [_testPathCases] keeps its keys in the
    order the object literal gives them. *)
Record t := {
  _context : Context;
  _rootPattern : Regex;
  _testIgnorePattern : option Regex;
  _testPathCases : list (string * (string → bool));
}.

Definition constructor (context : Context) : t :=
  let config := config context in
  let rootPattern :=
    RegExp (join "|" (map (λ dir, escapePathForRegex (dir +:+ path_sep)) (roots config))) in
  let ignorePattern := testPathIgnorePatterns config in
  let testIgnorePattern :=
    if bool_decide (length ignorePattern = 0%nat) then None
    else Some (RegExp (join "|" ignorePattern)) in
  {| _context := context;
     _rootPattern := rootPattern;
     _testIgnorePattern := testIgnorePattern;
     _testPathCases :=
       [("roots", λ path, test rootPattern path);
        ("testMatch", globsToMatcher (testMatch config));
        ("testPathIgnorePatterns",
         λ path, match testIgnorePattern with
                 | None => true
                 | Some pattern => negb (test pattern path)
                 end);
        ("testRegex", regexToMatcher (testRegex config))] |}.

(** The cases [_filterTestPathsWithStats] tries: those of the object, and
    one more for a [testPathPattern] that is given and not empty. *)
Definition testCases_of (this : t) (testPathPattern : option string)
    : list (string * (string → bool)) :=
  _testPathCases this ++
  match testPathPattern with
  | Some pattern =>
      if bool_decide (pattern = "") then []
      else let regex := testPathPatternToRegExp pattern in
           [("testPathPattern", λ path, test regex path)]
  | None => []
  end.

Definition _filterTestPathsWithStats (this : t) (allPaths : list Test)
    (testPathPattern : option string) : SearchResult :=
  let testCases := testCases_of this testPathPattern in
  let '(tests, stats) := filter_paths testCases allPaths ∅ in
  {| stats := Some stats; tests := tests;
     total := Some (Fin (Z.of_nat (length allPaths))) |}.

Definition _getAllTestPaths (this : t) (testPathPattern : string) : SearchResult :=
  _filterTestPathsWithStats this
    (toTests (_context this) (getAllFiles (_context this))) (Some testPathPattern).

Definition isTestFilePath (this : t) (path : string) : bool :=
  forallb (λ '(key, testCase), testCase path) (_testPathCases this).

Definition findMatchingTests (this : t) (testPathPattern : string) : SearchResult :=
  _getAllTestPaths this testPathPattern.

Definition findTestsByPaths (this : t) (paths : list string) : SearchResult :=
  let cwd := realpath_cwd in
  {| stats := None;
     tests := toTests (_context this)
                (List.filter (isTestFilePath this) (map (λ p, path_resolve cwd p) paths));
     total := None |}.

(** Whether a path passes the case of [testPathPattern], when there is
    one. *)
Definition passes_pattern (testPathPattern : option string) (path : string) : bool :=
  match testPathPattern with
  | Some pattern =>
      if bool_decide (pattern = "") then true
      else test (testPathPatternToRegExp pattern) path
  | None => true
  end.

End WithEnv.

(** The number of paths that pass a case. *)
Definition passing (testCase : string → bool) (allPaths : list Test) : nat :=
  length (List.filter (λ test, testCase (path test)) allPaths).

(** [data.stats[key]] read as a count: the number it holds, [0] while the
    key is missing. *)
Definition counted (stats : gmap string number) (key : string) (c : Z) : Prop :=
  0 ≤ c ∧ (stats !! key = Some (Fin c) ∨ (stats !! key = None ∧ c = 0)).

(** A host for examples: an expression is a text and matches the paths that
    contain it; a glob matches the paths that end with it. *)
Definition contains (pattern path : string) : bool :=
  bool_decide (pattern = "") ||
  bool_decide (is_Some (String.index 0 pattern path)).

Definition example_env : Env := {|
  Regex := string;
  RegExp source := source;
  test := contains;
  path_sep := "/";
  path_resolve cwd p := cwd +:+ "/" +:+ p;
  escapePathForRegex p := p;
  micromatch list globs :=
    List.filter (λ path, existsb (λ glob, contains glob path) globs) list;
  testPathPatternToRegExp pattern := pattern;
  realpath_cwd := "/project";
|}.

Definition example_context : Context := {|
  config := {| roots := ["/project"]; testMatch := Some [".test.js"];
               testPathIgnorePatterns := ["node_modules"]; testRegex := [] |};
  getAllFiles := ["/project/a.test.js"; "/project/a.js";
                  "/project/node_modules/b.test.js"; "/elsewhere/c.test.js"];
|}.

End SearchSource.

(** ** e2e: running jest on a directory (runJest.js) *)

Module RunJest.

Record RunJestOptions := {
  nodePath : option string;
  skipPkgJsonCheck : option bool;
  stripAnsi : option bool;
}.

(** The options [spawnSync] is given, and what it returns, as far as
    [runJest] reads it. *)
Record SpawnOptions := {
  cwd : string;
  env : gmap string value;
  reject : bool;
}.

Record Spawned := {
  code : value;
  stdout : string;
  stderr : string;
}.

(** The result, with the fields [runJest] and [json] assign. *)
Record Result := {
  result : Spawned;
  status : value;
  json_of : option value;
}.

(** A call of [spawnSync]. *)
Record Spawn := {
  file : string;
  arguments : list string;
  spawn_options : SpawnOptions;
}.

(** What is taken from the host and from the modules the file imports:
    [__dirname], [path.isAbsolute], [path.resolve] on two arguments,
    [fs.existsSync], [process.env], [spawnSync] of [execa], [normalizeIcons]
    of [./Utils], [stripAnsi], and [JSON.parse], which gives the value
    parsed or the name and the message of the error it throws. *)
Class Env := {
  __dirname : string;
  path_isAbsolute : string → bool;
  path_resolve : string → string → string;
  fs_existsSync : string → bool;
  process_env : gmap string value;
  spawnSync : string → list string → SpawnOptions → Spawned;
  normalizeIcons : string → string;
  strip_ansi : string → string;
  JSON_parse : string → value + string * string;
}.

(** The truth of an optional boolean and of an optional string. *)
Definition truthy_bool (b : option bool) : bool := default false b.

Definition truthy_string (s : option string) : bool :=
  match s with
  | Some s => negb (bool_decide (s = ""))
  | None => false
  end.

Definition quote : string := String (Ascii.ascii_of_nat 34) "".

(** The message of the error for a missing [package.json]. *)
Definition no_package_json (localPackageJson : string) : string :=
  "
      Make sure you have a local package.json file at
        " +:+ quote +:+ localPackageJson +:+ quote +:+ ".
      Otherwise Jest will try to traverse the directory tree and find the
      global package.json, which will send Jest into infinite loop.
    ".

Section WithEnv.
Context {host : Env}.

Definition JEST_PATH : string :=
  path_resolve __dirname "../packages/jest-cli/bin/jest.js".

(** The environment of the child: [{...process.env, FORCE_COLOR: 0}], with
    [NODE_PATH] when [options.nodePath] is given and not empty. *)
Definition child_env (options : RunJestOptions) : gmap string value :=
  let child := <["FORCE_COLOR" := VNum (Fin 0)]> process_env in
  if truthy_string (nodePath options)
  then <["NODE_PATH" := VStr (default "" (nodePath options))]> child
  else child.

(** [runJest(dir, args, options)]: what it returns or throws, and the
    calls of [spawnSync] it made. *)
Definition runJest (dir : string) (args : option (list string))
    (options : RunJestOptions) : completion Result * list Spawn :=
  let isRelative := negb (path_isAbsolute dir) in
  let dir := if isRelative then path_resolve __dirname dir else dir in
  let localPackageJson := path_resolve dir "package.json" in
  if negb (truthy_bool (skipPkgJsonCheck options)) && negb (fs_existsSync localPackageJson)
  then (Throw (VObject (new_Error (no_package_json localPackageJson))), [])
  else
    let spawn :=
      {| file := JEST_PATH; arguments := default [] args;
         spawn_options := {| cwd := dir; env := child_env options; reject := false |} |} in
    let result := spawnSync (file spawn) (arguments spawn) (spawn_options spawn) in
    let status := code result in
    let out := normalizeIcons (stdout result) in
    let out := if truthy_bool (stripAnsi options) then strip_ansi out else out in
    let err := normalizeIcons (stderr result) in
    let err := if truthy_bool (stripAnsi options) then strip_ansi err else err in
    (Normal {| result := {| code := code result; stdout := out; stderr := err |};
               status := status; json_of := None |},
     [spawn]).

(** The message of the error [json] throws when the output is no JSON;
    [name] and [message] are those of the error [JSON.parse] threw. *)
Definition cannot_parse (name message out err : string) : string :=
  "
      Can't parse JSON.
      ERROR: " +:+ name +:+ " " +:+ message +:+ "
      STDOUT: " +:+ out +:+ "
      STDERR: " +:+ err +:+ "
    ".

Definition json (dir : string) (args : option (list string))
    (options : RunJestOptions) : completion Result * list Spawn :=
  let args := (default [] args ++ ["--json"])%list in
  match runJest dir (Some args) options with
  | (Normal r, spawns) =>
      match JSON_parse (stdout (result r)) with
      | inl parsed =>
          (Normal {| result := result r; status := status r; json_of := Some parsed |},
           spawns)
      | inr (name, message) =>
          (Throw (VObject (new_Error
             (cannot_parse name message (stdout (result r)) (stderr (result r))))),
           spawns)
      end
  | (Throw e, spawns) => (Throw e, spawns)
  end.

End WithEnv.

(** A host for examples: a project at [/e2e/project] with its
    [package.json], and a child that prints what it was given. *)
Definition example_env : Env := {|
  __dirname := "/e2e";
  path_isAbsolute p := String.prefix "/" p;
  path_resolve a b := a +:+ "/" +:+ b;
  fs_existsSync p := bool_decide (p = "/e2e/project/package.json");
  process_env := {[ "FORCE_COLOR" := VStr "1"; "HOME" := VStr "/home" ]};
  spawnSync file args options :=
    {| code := VNum (Fin 0); stdout := String.concat " " args; stderr := "" |};
  normalizeIcons s := s;
  strip_ansi s := s;
  JSON_parse s := inr ("SyntaxError", "Unexpected token");
|}.

End RunJest.

(** * Lemmas *)

(** ** Numbers *)

Lemma add1_Fin z : z < MAX_EXACT → add1 (Fin z) = Fin (z + 1).
Proof. intros Hz. unfold add1. by rewrite (proj2 (Z.ltb_lt _ _) Hz). Qed.

Lemma add1_NaN : add1 NaN = NaN.
Proof. reflexivity. Qed.

Lemma gt_NaN_l y : gt NaN y = false.
Proof. by destruct y. Qed.

Lemma gt_Fin a b : gt (Fin a) (Fin b) = bool_decide (b < a).
Proof.
  simpl. destruct (Z.ltb_spec b a).
  - by rewrite bool_decide_eq_true_2.
  - rewrite bool_decide_eq_false_2; [done | lia].
Qed.

(** ** Values *)


Lemma is_tag_true v tag : is_tag v tag = true ↔ v = VNum (Fin tag).
Proof.
  split.
  - destruct v as [| | |[]| | |]; simpl; try discriminate.
    intros Hz%bool_decide_eq_true. by subst.
  - intros ->. simpl. by rewrite bool_decide_eq_true_2.
Qed.

Lemma is_tag_refl tag : is_tag (VNum (Fin tag)) tag = true.
Proof. by apply is_tag_true. Qed.

Lemma is_tag_other a b : a ≠ b → is_tag (VNum (Fin a)) b = false.
Proof. intros Hab. simpl. by rewrite bool_decide_eq_false_2. Qed.

Lemma get_set k v o : get (set k v o) k = v.
Proof. destruct o. unfold get, set. simpl. by rewrite lookup_insert_eq. Qed.

Lemma get_set_ne k k' v o : k ≠ k' → get (set k v o) k' = get o k'.
Proof. intros Hk. destruct o. unfold get, set. simpl. by rewrite lookup_insert_ne. Qed.

Lemma class_of_set k v o : class_of (set k v o) = class_of o.
Proof. by destruct o. Qed.

Lemma class_of_assign_ordinary k v o : class_of (assign_ordinary k v o) = class_of o.
Proof. unfold assign_ordinary. case_bool_decide; [done | apply class_of_set]. Qed.

Lemma props_of_assign_ordinary k v o k' :
  props_of (assign_ordinary k v o) !! k' =
    if bool_decide (k' = k ∧ k ≠ "__proto__") then Some v else props_of o !! k'.
Proof.
  unfold assign_ordinary. destruct o as [c p].
  case_bool_decide as Hproto; cbn [set props_of class_of].
  - rewrite bool_decide_eq_false_2; [done | by intros [_ ?]].
  - destruct (decide (k' = k)) as [->|Hne].
    + by rewrite lookup_insert_eq, bool_decide_eq_true_2.
    + rewrite lookup_insert_ne by done.
      rewrite bool_decide_eq_false_2; [done | by intros [? _]].
Qed.

Section Copy.
Context {host : Host}.

(** The native error constructors build objects that take every
    assignment as an ordinary object does. *)
Lemma put_plain F k v o :
  plain_assignments F → put (VFunction F) k v o = Normal (assign_ordinary k v o).
Proof. destruct F as [name|name]; [done|]. intros Hplain. apply Hplain. Qed.

Lemma for_in_keys_spec (extra : value) (k : string) :
  k ∈ for_in_keys extra ↔ is_Some (fields_of extra !! k).
Proof.
  destruct extra as [| | | | |o|]; cbn [for_in_keys fields_of];
    try (rewrite lookup_empty, elem_of_nil; split; [done | by intros [? ?]]).
  rewrite (for_in_host_keys o). split.
  - intros [[k' v] [-> Hkv]]%list_elem_of_fmap.
    apply elem_of_map_to_list in Hkv. eauto.
  - intros [v Hv]. apply list_elem_of_fmap. exists (k, v).
    split; [done|]. by apply elem_of_map_to_list.
Qed.

(** Once an assignment has thrown, the loop is over. *)
Lemma copy_keys_Throw Ctor (extra : value) (keys : list string) exn :
  foldl (λ error key,
           error ← error;
           put Ctor key (default VUndefined (fields_of extra !! key)) error)
    (Throw exn) keys = Throw exn.
Proof. induction keys as [|key keys IH]; [done | apply IH]. Qed.

(** On an object that takes every assignment as an ordinary object does,
    the loop [for (const key in extra) error[key] = extra[key]] lays the
    fields of [extra] over those of [error], whatever the order of the
    keys; a field ['__proto__'] is no property of the result. *)
Lemma copy_keys_plain Ctor (extra : value) (keys : list string) (error : object) :
  (∀ k v o, put Ctor k v o = Normal (assign_ordinary k v o)) →
  (∀ k, k ∈ keys → is_Some (fields_of extra !! k)) →
  ∃ error',
    foldl (λ error key,
             error ← error;
             put Ctor key (default VUndefined (fields_of extra !! key)) error)
      (Normal error) keys = Normal error' ∧
    class_of error' = class_of error ∧
    ∀ k, props_of error' !! k =
         if bool_decide (k ∈ keys ∧ k ≠ "__proto__") then fields_of extra !! k
         else props_of error !! k.
Proof.
  intros Hplain. revert error.
  induction keys as [|key keys IH]; intros error Hkeys; cbn [foldl].
  - exists error. split; [done|]. split; [done|]. intros k.
    rewrite bool_decide_eq_false_2; [done|]. by intros [?%elem_of_nil _].
  - unfold mbind at 2, completion_bind at 2. rewrite Hplain.
    destruct (IH (assign_ordinary key (default VUndefined (fields_of extra !! key)) error))
      as (error' & Hrun & Hc & Hp).
    { intros k Hk. apply Hkeys. by right. }
    exists error'. split; [done|].
    split; [by rewrite Hc, class_of_assign_ordinary|].
    intros k. rewrite Hp, props_of_assign_ordinary.
    destruct (Hkeys key) as [v Hv]; [by left|]. rewrite Hv. cbn [default].
    destruct (decide (k = "__proto__")) as [->|Hproto].
    { rewrite (bool_decide_eq_false_2 (_ ∈ keys ∧ _)) by (by intros [_ ?]).
      rewrite (bool_decide_eq_false_2 (_ = key ∧ _)) by (intros [? ?]; congruence).
      by rewrite (bool_decide_eq_false_2 (_ ∈ key :: keys ∧ _)) by (by intros [_ ?]). }
    destruct (decide (k = key)) as [->|Hne].
    { rewrite (bool_decide_eq_true_2 (key ∈ key :: keys ∧ _)) by (split; [by left | done]).
      rewrite Hv. case_bool_decide; [done|]. by rewrite bool_decide_eq_true_2. }
    rewrite (bool_decide_eq_false_2 (k = key ∧ _)) by (by intros [? _]).
    destruct (decide (k ∈ keys)) as [Hin|Hin].
    + rewrite (bool_decide_eq_true_2 (k ∈ keys ∧ _)) by done.
      by rewrite (bool_decide_eq_true_2 (k ∈ key :: keys ∧ _)) by (split; [by right | done]).
    + rewrite (bool_decide_eq_false_2 (k ∈ keys ∧ _)) by (by intros [? _]).
      by rewrite (bool_decide_eq_false_2 (k ∈ key :: keys ∧ _))
        by (intros [[?|?]%elem_of_cons _]; done).
Qed.

Lemma copy_fields_plain Ctor (extra error : object) :
  (∀ k v o, put Ctor k v o = Normal (assign_ordinary k v o)) →
  ∃ error',
    copy_fields Ctor (VObject extra) error = Normal error' ∧
    class_of error' = class_of error ∧
    props_of error' = delete "__proto__" (props_of extra) ∪ props_of error.
Proof.
  intros Hplain. unfold copy_fields.
  destruct (copy_keys_plain Ctor (VObject extra) (for_in_keys (VObject extra)) error Hplain)
    as (error' & Hrun & Hc & Hp).
  { intros k. apply for_in_keys_spec. }
  exists error'. split; [done|]. split; [done|].
  apply map_eq. intros k. rewrite Hp, lookup_union. cbn [fields_of].
  destruct (decide (k = "__proto__")) as [->|Hproto].
  - rewrite bool_decide_eq_false_2 by (by intros [_ ?]).
    rewrite lookup_delete_eq. by destruct (props_of error !! "__proto__").
  - rewrite lookup_delete_ne by done.
    destruct (props_of extra !! k) as [v|] eqn:Hk.
    + rewrite bool_decide_eq_true_2.
      * by destruct (props_of error !! k).
      * split; [|done]. apply for_in_keys_spec. cbn [fields_of]. by rewrite Hk.
    + rewrite bool_decide_eq_false_2.
      * by destruct (props_of error !! k).
      * intros [[v Hv]%for_in_keys_spec _]. cbn [fields_of] in Hv. congruence.
Qed.

End Copy.

(** ** The methods, one call at a time *)

Section Steps.
Context {host : Host} {tags : MessageTags}.

Lemma call_onProcessEnd_Some error result w e :
  _onProcessEnd (this w) = Some e →
  call_onProcessEnd error result w = (Normal tt, emits [OnProcessEnd e error result] w).
Proof. intros He. unfold call_onProcessEnd, read, mbind, M_bind. by rewrite He. Qed.

Lemma call_onProcessEnd_None error result w :
  _onProcessEnd (this w) = None →
  call_onProcessEnd error result w
    = (Throw (TypeError "this._onProcessEnd is not a function"), w).
Proof. intros He. unfold call_onProcessEnd, read, mbind, M_bind. by rewrite He. Qed.

Lemma onMessage_OK response w :
  index response 0 = VNum (Fin PARENT_MESSAGE_OK) →
  onMessage response w = call_onProcessEnd VNull (index response 1) w.
Proof. intros Ht. unfold onMessage. by rewrite Ht, is_tag_refl. Qed.

Lemma typeof_function v : typeof v = "function" ↔ ∃ F, v = VFunction F.
Proof.
  split.
  - destruct v; try discriminate; eauto.
  - by intros [F ->].
Qed.

(** [rebuild_error], by what the constructor does. *)
Lemma rebuild_error_unfold response extra w :
  rebuild_error response extra w =
    match construct (Ctor_of response) (index response 2) with
    | Normal base =>
        match rebuilt response extra base with
        | Normal error => (Normal (VObject error), w)
        | Throw exn => (Throw exn, w)
        end
    | Throw exn => (Throw exn, w)
    end.
Proof.
  assert (Hnew : ∀ F,
    (error ← new (VFunction F) (index response 2);
     error ← lift (put (VFunction F) "type" (index response 1) error);
     error ← lift (put (VFunction F) "stack" (index response 3) error);
     error ← lift (copy_fields (VFunction F) extra error);
     mret (VObject error)) w =
    match construct F (index response 2) with
    | Normal base =>
        match (error ← put (VFunction F) "type" (index response 1) base;
               error ← put (VFunction F) "stack" (index response 3) error;
               copy_fields (VFunction F) extra error) with
        | Normal error => (Normal (VObject error), w)
        | Throw exn => (Throw exn, w)
        end
    | Throw exn => (Throw exn, w)
    end).
  { intros F. unfold new, lift, throw, mbind, M_bind, completion_bind, mret, M_ret.
    destruct (construct F (index response 2)) as [base|exn]; [|done].
    destruct (put _ "type" _ base) as [error|exn]; [|done].
    destruct (put _ "stack" _ error) as [error'|exn]; [|done].
    by destruct (copy_fields _ extra error'). }
  unfold rebuild_error, rebuilt, Ctor_of.
  destruct (global (index response 1)) as [| | | | | |F]; try apply Hnew.
Qed.

Lemma onMessage_CLIENT_ERROR_raw response w :
  index response 0 = VNum (Fin PARENT_MESSAGE_CLIENT_ERROR) →
  is_object (index response 4) = false →
  onMessage response w = call_onProcessEnd (index response 4) VNull w.
Proof.
  intros Ht Hraw. unfold onMessage.
  by rewrite Ht, (is_tag_other _ _ client_error_not_ok), is_tag_refl, Hraw.
Qed.

Lemma onMessage_CLIENT_ERROR_object response extra w :
  index response 0 = VNum (Fin PARENT_MESSAGE_CLIENT_ERROR) →
  index response 4 = VObject extra →
  onMessage response w =
    match construct (Ctor_of response) (index response 2) with
    | Normal base =>
        match rebuilt response (VObject extra) base with
        | Normal error => call_onProcessEnd (VObject error) VNull w
        | Throw exn => (Throw exn, w)
        end
    | Throw exn => (Throw exn, w)
    end.
Proof.
  intros Ht Hobj. unfold onMessage.
  rewrite Ht, (is_tag_other _ _ client_error_not_ok), is_tag_refl, Hobj.
  change (is_object (VObject extra)) with true. cbv iota.
  unfold mbind at 1, M_bind at 1. rewrite rebuild_error_unfold.
  destruct (construct _ _); [|done]. by destruct (rebuilt _ _ _).
Qed.

(** The error rebuilt on an object that takes every assignment as an
    ordinary object does. *)
Lemma rebuilt_plain response (extra base : object) :
  plain_assignments (Ctor_of response) →
  ∃ error,
    rebuilt response (VObject extra) base = Normal error ∧
    class_of error = class_of base ∧
    props_of error =
      delete "__proto__" (props_of extra) ∪
        <["stack" := index response 3]> (<["type" := index response 1]> (props_of base)).
Proof.
  intros Hplain. unfold rebuilt, mbind, completion_bind.
  rewrite (put_plain _ "type" _ _ Hplain). cbv beta iota.
  rewrite (put_plain _ "stack" _ _ Hplain). cbv beta iota.
  destruct (copy_fields_plain (VFunction (Ctor_of response)) extra
              (assign_ordinary "stack" (index response 3)
                 (assign_ordinary "type" (index response 1) base)))
    as (error & Hrun & Hc & Hp).
  { intros k v o. by apply put_plain. }
  exists error. split; [done|]. split; [by rewrite Hc|].
  rewrite Hp. by destruct base.
Qed.

Lemma onMessage_SETUP_ERROR response w :
  index response 0 = VNum (Fin PARENT_MESSAGE_SETUP_ERROR) →
  onMessage response w =
    call_onProcessEnd (VObject (setup_error response)) VNull w.
Proof.
  intros Ht. unfold onMessage.
  by rewrite Ht, (is_tag_other _ _ setup_error_not_ok),
    (is_tag_other _ _ setup_error_not_client_error), is_tag_refl.
Qed.

Lemma onMessage_default response w :
  is_tag (index response 0) PARENT_MESSAGE_OK = false →
  is_tag (index response 0) PARENT_MESSAGE_CLIENT_ERROR = false →
  is_tag (index response 0) PARENT_MESSAGE_SETUP_ERROR = false →
  onMessage response w =
    (Throw (TypeError ("Unexpected response from worker: " +:+ ToString (index response 0))), w).
Proof. intros H1 H2 H3. unfold onMessage. by rewrite H1, H2, H3. Qed.

Lemma rebuilt_retries_exceeded stack :
  construct (Ctor_of (retries_exceeded stack)) (index (retries_exceeded stack) 2)
    = Normal (new_Error "Call retries were exceeded") ∧
  rebuilt (retries_exceeded stack)
      (VObject (Obj "Object" {[ "type" := VStr "WorkerError" ]}))
      (new_Error "Call retries were exceeded")
    = Normal (retries_exceeded_error stack).
Proof.
  split; [reflexivity|].
  destruct (rebuilt_plain (retries_exceeded stack)
              (Obj "Object" {[ "type" := VStr "WorkerError" ]})
              (new_Error "Call retries were exceeded"))
    as ([class props] & -> & Hc & Hp); [done|].
  cbn [class_of props_of] in Hc, Hp. by subst.
Qed.

Lemma onMessage_retries_exceeded stack w e :
  _onProcessEnd (this w) = Some e →
  onMessage (retries_exceeded stack) w
    = (Normal tt, emits [OnProcessEnd e (VObject (retries_exceeded_error stack)) VNull] w).
Proof.
  intros He.
  rewrite (onMessage_CLIENT_ERROR_object _ (Obj "Object" {[ "type" := VStr "WorkerError" ]}))
    by done.
  destruct (rebuilt_retries_exceeded stack) as [-> ->].
  by apply call_onProcessEnd_Some.
Qed.

(** [initialize]: the respawn, then the bound check. *)
Lemma initialize_unfold w :
  initialize w =
    if gt (add1 (ToNumber (_retries (this w)))) (maxRetries (_options (this w)))
    then onMessage (retries_exceeded (captureStackTrace (S (threads w)))) (respawned w)
    else (Normal tt, respawned w).
Proof.
  unfold initialize, respawned, new_Worker, worker_on, worker_postMessage,
    read, write, emit, mbind, M_bind, mret, M_ret.
  cbn. rewrite <- !app_assoc. cbn.
  by destruct (gt _ _).
Qed.

Lemma onExit_zero w : onExit (VNum (Fin 0)) w = (Normal tt, w).
Proof. reflexivity. Qed.

Lemma onExit_nonzero exitCode w :
  exitCode ≠ VNum (Fin 0) → onExit exitCode w = initialize w.
Proof.
  intros Hc. unfold onExit.
  destruct (is_tag exitCode 0) eqn:Ht; [|done].
  by apply is_tag_true in Ht.
Qed.

Lemma send_unfold request s e w :
  send request s e w =
    let w' := {| this := set_retries (Fin 0) (set_onProcessEnd e (this w));
                 threads := threads w;
                 trace := trace w ++ [OnProcessStart s (this w)] |} in
    match _worker (this w) with
    | Some t => (Normal tt, emits [PostMessage t request] w')
    | None =>
        (Throw (TypeError "Cannot read property 'postMessage' of undefined"), w')
    end.
Proof.
  unfold send, worker_postMessage, read, write, emit, mbind, M_bind, mret, M_ret.
  cbn. by destruct (_worker (this w)).
Qed.


(** ** Runs of calls *)

Lemma run_cons c cs w :
  run (c :: cs) w =
    match perform c w with
    | (Normal _, w') => run cs w'
    | (Throw exn, w') => (Throw exn, w')
    end.
Proof. reflexivity. Qed.

Lemma count_app p tr tr' : count p (tr ++ tr') = (count p tr + count p tr')%nat.
Proof. unfold count. by rewrite List.filter_app, length_app. Qed.

(** A message that [onMessage] takes without throwing calls the completion
    hook once and does nothing else. *)
Lemma onMessage_Normal response w w' e :
  _onProcessEnd (this w) = Some e →
  onMessage response w = (Normal tt, w') →
  ∃ error result, w' = emits [OnProcessEnd e error result] w.
Proof.
  intros He. unfold onMessage.
  assert (Hcall : ∀ error result,
    call_onProcessEnd error result w = (Normal tt, w') →
    ∃ error result, w' = emits [OnProcessEnd e error result] w).
  { intros error result. rewrite (call_onProcessEnd_Some _ _ _ _ He).
    intros [= <-]. eauto. }
  destruct (is_tag _ PARENT_MESSAGE_OK); [apply Hcall|].
  destruct (is_tag _ PARENT_MESSAGE_CLIENT_ERROR).
  - unfold mbind, M_bind. destruct (is_object (index response 4)).
    + rewrite rebuild_error_unfold. destruct (construct _ _); [|discriminate].
      destruct (rebuilt _ _ _); [apply Hcall | discriminate].
    + apply Hcall.
  - destruct (is_tag _ PARENT_MESSAGE_SETUP_ERROR); [apply Hcall | discriminate].
Qed.

(** [initialize] on a counter that holds a number, with a hook in place. *)
Lemma initialize_counted w e r m :
  _onProcessEnd (this w) = Some e →
  _retries (this w) = Some (Fin r) →
  maxRetries (_options (this w)) = Fin m →
  r < MAX_EXACT →
  initialize w =
    (Normal tt,
     if bool_decide (m < r + 1)
     then emits [OnProcessEnd e
                   (VObject (retries_exceeded_error (captureStackTrace (S (threads w)))))
                   VNull] (respawned w)
     else respawned w).
Proof.
  intros He Hr Hm Hlt. rewrite initialize_unfold, Hr, Hm.
  change (ToNumber (Some (Fin r))) with (Fin r).
  rewrite add1_Fin, gt_Fin by done.
  case_bool_decide; [|done].
  by apply onMessage_retries_exceeded.
Qed.

Lemma respawned_this w :
  this (respawned w) =
    set_retries (add1 (ToNumber (_retries (this w)))) (set_worker (threads w) (this w)).
Proof. reflexivity. Qed.

(** The calls that follow a [send], up to the next one: every message taken
    calls the completion hook once, and so does every respawn that finds the
    counter above [maxRetries]. *)
Lemma run_after_send cs : ∀ w w' e r m,
  forallb (λ c, negb (is_send c)) cs = true →
  _onProcessEnd (this w) = Some e →
  _retries (this w) = Some (Fin r) →
  maxRetries (_options (this w)) = Fin m →
  0 ≤ r →
  r + Z.of_nat (length (List.filter is_respawn cs)) ≤ MAX_EXACT →
  run cs w = (Normal tt, w') →
  _onProcessEnd (this w') = Some e ∧
  _retries (this w') = Some (Fin (r + Z.of_nat (length (List.filter is_respawn cs)))) ∧
  _options (this w') = _options (this w) ∧
  (∀ s, count (is_start_of s) (trace w') = count (is_start_of s) (trace w)) ∧
  count (is_end_of e) (trace w') =
    (count (is_end_of e) (trace w)
     + length (List.filter is_message cs)
     + Z.to_nat (Z.max 0 (r + Z.of_nat (length (List.filter is_respawn cs)) - Z.max r m)))%nat.
Proof.
  induction cs as [|c cs IH]; intros w w' e r m Hns He Hr Hm Hr0 Hbound Hrun.
  - injection Hrun as <-. cbn [List.filter length]. rewrite Z.add_0_r.
    repeat split; try done. lia.
  - cbn [forallb] in Hns. apply andb_true_iff in Hns as [Hc Hns].
    rewrite run_cons in Hrun.
    assert (Hinit : is_respawn c = true → perform c w = initialize w).
    { destruct c as [| |code|]; try done. cbn [is_respawn perform].
      intros Hz%negb_true_iff. unfold onExit. by rewrite Hz. }
    destruct (is_respawn c) eqn:Hresp.
    + (* a respawn *)
      cbn [List.filter] in Hbound |- *. rewrite Hresp in Hbound |- *.
      cbn [length] in Hbound |- *.
      assert (is_message c = false) as -> by by destruct c.
      rewrite (Hinit eq_refl), (initialize_counted w e r m) in Hrun by (done || lia).
      set (w1 := if bool_decide (m < r + 1) then _ else _) in Hrun.
      assert (this w1 = this (respawned w)) as Hthis by (unfold w1; by case_bool_decide).
      destruct (IH w1 w' e (r + 1) m) as (He' & Hr' & Ho' & Hs' & Hcount); try done.
      * by rewrite Hthis.
      * rewrite Hthis, respawned_this, Hr.
        change (ToNumber (Some (Fin r))) with (Fin r).
        by rewrite add1_Fin by lia.
      * by rewrite Hthis.
      * lia.
      * lia.
      * split; [done|]. split; [rewrite Hr'; f_equal; f_equal; lia|].
        split; [by rewrite Ho', Hthis|].
        split.
        { intros s. rewrite Hs'. unfold w1. case_bool_decide; cbn [trace respawned emits];
            rewrite ?count_app; cbn; lia. }
        rewrite Hcount. unfold w1.
        case_bool_decide; cbn [trace respawned emits]; rewrite ?count_app; cbn;
          rewrite ?bool_decide_eq_true_2 by done; cbn; lia.
    + (* a message, or an exit with code 0 *)
      cbn [List.filter] in Hbound |- *. rewrite Hresp in Hbound |- *.
      destruct c as [|response|code|]; try done.
      * cbn [perform is_message length] in Hrun |- *.
        destruct (onMessage response w) as [[[]|exn] w1] eqn:Hmsg; [|discriminate].
        destruct (onMessage_Normal _ _ _ _ He Hmsg) as (error & result & ->).
        destruct (IH (emits [OnProcessEnd e error result] w) w' e r m Hns He Hr Hm Hr0 Hbound Hrun)
          as (He' & Hr' & Ho' & Hs' & Hcount).
        repeat split; try done.
        { intros s. rewrite Hs'. cbn [trace emits]. rewrite count_app. cbn. lia. }
        rewrite Hcount. cbn [trace emits]. rewrite count_app. cbn.
        rewrite bool_decide_eq_true_2 by done. cbn. lia.
      * cbn [perform is_message] in Hrun |- *.
        cbn [is_respawn] in Hresp. apply negb_false_iff in Hresp.
        unfold onExit in Hrun. rewrite Hresp in Hrun. cbn in Hrun.
        by apply (IH w w' e r m).
Qed.

(** Respawns alone never throw once a hook is in place. *)
Lemma run_respawns_Normal cs : ∀ w e r m,
  forallb is_respawn cs = true →
  _onProcessEnd (this w) = Some e →
  _retries (this w) = Some (Fin r) →
  maxRetries (_options (this w)) = Fin m →
  0 ≤ r →
  r + Z.of_nat (length cs) ≤ MAX_EXACT →
  ∃ w', run cs w = (Normal tt, w').
Proof.
  induction cs as [|c cs IH]; intros w e r m Hresp He Hr Hm Hr0 Hbound.
  - by eexists.
  - cbn [forallb] in Hresp. apply andb_true_iff in Hresp as [Hc Hresp].
    cbn [length] in Hbound.
    assert (perform c w = initialize w) as Hinit.
    { destruct c as [| |code|]; try done. cbn [is_respawn perform] in Hc |- *.
      apply negb_true_iff in Hc. unfold onExit. by rewrite Hc. }
    rewrite run_cons, Hinit, (initialize_counted w e r m) by (done || lia).
    set (w1 := if bool_decide (m < r + 1) then _ else _).
    assert (this w1 = this (respawned w)) as Hthis by (unfold w1; by case_bool_decide).
    apply (IH w1 e (r + 1) m); try done; try lia.
    + by rewrite Hthis.
    + rewrite Hthis, respawned_this, Hr.
        change (ToNumber (Some (Fin r))) with (Fin r).
        by rewrite add1_Fin by lia.
    + by rewrite Hthis.
Qed.

End Steps.

(** ** More on single calls *)

Section Frames.
Context {host : Host} {tags : MessageTags}.

(** [onMessage] touches neither the fields nor the threads: it calls the
    completion hook once, or it throws before any call. *)
Lemma onMessage_frame response w :
  (onMessage response w).2 = w ∨
  ∃ e error result,
    _onProcessEnd (this w) = Some e ∧
    onMessage response w = (Normal tt, emits [OnProcessEnd e error result] w).
Proof.
  assert (Hcall : ∀ error result,
    (call_onProcessEnd error result w).2 = w ∨
    ∃ e error' result',
      _onProcessEnd (this w) = Some e ∧
      call_onProcessEnd error result w = (Normal tt, emits [OnProcessEnd e error' result'] w)).
  { intros error result. destruct (_onProcessEnd (this w)) as [e|] eqn:He.
    - right. exists e, error, result. split; [done|]. by apply call_onProcessEnd_Some.
    - left. by rewrite call_onProcessEnd_None. }
  unfold onMessage.
  destruct (is_tag _ PARENT_MESSAGE_OK); [apply Hcall|].
  destruct (is_tag _ PARENT_MESSAGE_CLIENT_ERROR).
  - unfold mbind, M_bind. destruct (is_object (index response 4)).
    + rewrite rebuild_error_unfold. destruct (construct _ _); [|by left].
      destruct (rebuilt _ _ _); [apply Hcall | by left].
    + apply Hcall.
  - destruct (is_tag _ PARENT_MESSAGE_SETUP_ERROR); [apply Hcall | by left].
Qed.

(** The trace of [initialize] starts with the respawn, whatever follows. *)
Lemma initialize_respawns w :
  ∃ rest,
    (initialize w).2 = emits rest (respawned w) ∧ count is_spawn rest = 0%nat.
Proof.
  rewrite initialize_unfold. destruct (gt _ _).
  - destruct (onMessage_frame
                (retries_exceeded (captureStackTrace (S (threads w)))) (respawned w))
      as [Hw | (e & error & result & _ & Hw)].
    + exists []. rewrite Hw. split; [|done].
      unfold emits. cbn. by rewrite app_nil_r.
    + exists [OnProcessEnd e error result]. by rewrite Hw.
  - exists []. split; [|done]. unfold emits. cbn. by rewrite app_nil_r.
Qed.

Lemma send_Some request s e w t :
  _worker (this w) = Some t →
  send request s e w =
    (Normal tt,
     {| this := set_retries (Fin 0) (set_onProcessEnd e (this w));
        threads := threads w;
        trace := trace w ++ [OnProcessStart s (this w); PostMessage t request] |}).
Proof.
  intros Ht. rewrite send_unfold, Ht. unfold emits. cbn. by rewrite <- app_assoc.
Qed.

Lemma respawns_le_length cs : (respawns cs ≤ length cs)%nat.
Proof. apply List.filter_length_le. Qed.

Lemma respawns_replicate k : respawns (replicate k CallInitialize) = k.
Proof.
  unfold respawns. induction k as [|k IH]; [done|]. cbn. by rewrite IH.
Qed.

Lemma messages_replicate k : messages (replicate k CallInitialize) = 0%nat.
Proof. unfold messages. induction k as [|k IH]; [done|]. by cbn. Qed.

Lemma forallb_replicate_respawn k :
  forallb is_respawn (replicate k CallInitialize) = true.
Proof. induction k as [|k IH]; [done|]. by cbn. Qed.

Lemma forallb_replicate_no_send k :
  forallb (λ c, negb (is_send c)) (replicate k CallInitialize) = true.
Proof. induction k as [|k IH]; [done|]. by cbn. Qed.

(** Before the first [send]: no hook, a counter that is [undefined] or
    [NaN].  Respawns keep it so and complete. *)
Lemma initialize_before_send w :
  _onProcessEnd (this w) = None →
  (_retries (this w) = None ∨ _retries (this w) = Some NaN) →
  initialize w = (Normal tt, respawned w) ∧
  _retries (this (respawned w)) = Some NaN.
Proof.
  intros _ Hr. rewrite initialize_unfold.
  assert (add1 (ToNumber (_retries (this w))) = NaN) as Hnan
    by (by destruct Hr as [-> | ->]).
  rewrite Hnan, gt_NaN_l. split; [done|].
  rewrite respawned_this. cbn. by rewrite Hnan.
Qed.

Lemma run_before_send (rs : list (option value)) : ∀ w,
  _onProcessEnd (this w) = None →
  (_retries (this w) = None ∨ _retries (this w) = Some NaN) →
  ∃ w', run (respawn_call <$> rs) w = (Normal tt, w') ∧
        _onProcessEnd (this w') = None ∧
        (_retries (this w') = _retries (this w) ∨ _retries (this w') = Some NaN) ∧
        _options (this w') = _options (this w) ∧
        count is_end (trace w') = count is_end (trace w).
Proof.
  induction rs as [|r rs IH]; intros w He Hr.
  - exists w. by repeat split; try left.
  - cbn [fmap list_fmap]. rewrite run_cons.
    assert (perform (respawn_call r) w = (Normal tt, w) ∨
            perform (respawn_call r) w = initialize w) as [Hstay | Hinit].
    { destruct r as [code|]; [|by right]. cbn. unfold onExit.
      destruct (is_tag code 0); [by left | by right]. }
    + rewrite Hstay. by apply IH.
    + rewrite Hinit. destruct (initialize_before_send w He Hr) as [-> Hnan].
      destruct (IH (respawned w)) as (w' & Hrun & He' & Hr' & Ho' & Hc'); [done | by right |].
      exists w'. split; [done|]. split; [done|].
      split; [right; destruct Hr' as [Hr'|Hr']; [by rewrite Hr' | done]|].
      split; [by rewrite Ho'|].
      rewrite Hc'. unfold respawned. cbn [trace]. rewrite count_app. cbn. lia.
Qed.

End Frames.

(** * The properties of the worker *)

Section Properties.
Context {host : Host} {tags : MessageTags}.

(** C1.  Every call of [initialize] applies [++] to the retry counter, which
    takes a counter holding the number [r] to [r + 1].  The bound is checked
    on the incremented counter.  When it exceeds [maxRetries], [initialize]
    does nothing further than hand [onMessage] a [CLIENT_ERROR] message of
    its own making, as if the thread had replied it: the completion hook
    receives an [Error] with message ['Call retries were exceeded'] and type
    ['WorkerError'].  When it does not, [initialize] ends with the respawn.
    So with [maxRetries = m], of the calls of [initialize] that follow a
    [send] the first [m] call no hook and the [(m+1)]-th calls it once. *)
Theorem initialize_retry_bound (w : world) :
  let counter := add1 (ToNumber (_retries (this w))) in
  let exceeded := gt counter (maxRetries (_options (this w))) in
  _retries (this (initialize w).2) = Some counter ∧
  (∀ r, _retries (this w) = Some (Fin r) → r < MAX_EXACT → counter = Fin (r + 1)) ∧
  (exceeded = false → initialize w = (Normal tt, respawned w)) ∧
  (exceeded = true →
     initialize w =
       onMessage (retries_exceeded (captureStackTrace (S (threads w)))) (respawned w) ∧
     ∀ e, _onProcessEnd (this w) = Some e →
       initialize w =
         (Normal tt,
          emits [OnProcessEnd e
                   (VObject (retries_exceeded_error (captureStackTrace (S (threads w)))))
                   VNull] (respawned w))) ∧
  (∀ request s e t m (k : nat),
     _worker (this w) = Some t →
     maxRetries (_options (this w)) = Fin m →
     0 ≤ m < MAX_EXACT →
     Z.of_nat k ≤ m + 1 →
     ∃ w', run (CallSend request s e :: replicate k CallInitialize) w = (Normal tt, w') ∧
           _retries (this w') = Some (Fin (Z.of_nat k)) ∧
           count (is_end_of e) (trace w') =
             (count (is_end_of e) (trace w)
              + if bool_decide ((Z.of_nat k ≤ m)%Z) then 0 else 1)%nat).
Proof.
  cbv zeta. split; [|split; [|split; [|split]]].
  - by destruct (initialize_respawns w) as (rest & -> & _).
  - intros r -> Hr. by apply add1_Fin.
  - intros Hgt. by rewrite initialize_unfold, Hgt.
  - intros Hgt. rewrite initialize_unfold, Hgt. split; [done|].
    intros e He. by apply onMessage_retries_exceeded.
  - intros request s e t m k Ht Hm Hm0 Hk.
    rewrite run_cons. cbn [perform]. rewrite (send_Some _ _ _ _ _ Ht).
    set (w1 := {| this := _; threads := _; trace := _ |}).
    destruct (run_respawns_Normal (replicate k CallInitialize) w1 e 0 m) as [w' Hrun];
      try done.
    { apply forallb_replicate_respawn. }
    { rewrite length_replicate. lia. }
    exists w'. split; [done|].
    destruct (run_after_send (replicate k CallInitialize) w1 w' e 0 m)
      as (_ & Hr & _ & _ & Hc); try done.
    { apply forallb_replicate_no_send. }
    { fold (respawns (replicate k CallInitialize)). rewrite respawns_replicate. lia. }
    fold (respawns (replicate k CallInitialize)) in Hr, Hc.
    fold (messages (replicate k CallInitialize)) in Hc.
    rewrite respawns_replicate in Hr, Hc. rewrite messages_replicate in Hc.
    split; [by rewrite Hr|].
    rewrite Hc. unfold w1. cbn [trace]. rewrite count_app. cbn.
    case_bool_decide; lia.
Qed.

(** C2, as amended.  [send] calls the dispatch hook once.  Of the calls that
    follow a [send] up to the next one, each message that [onMessage] takes
    calls the completion hook once, and so does each respawn that finds the
    counter above [maxRetries = m]; an exit with code [0] and a respawn
    within the bound call nothing.  The hook of a call has been called
    [messages + max 0 (respawns - m)] times, which is once only when that
    sum is one. *)
Theorem call_lifetime_resolutions (w w' : world) request s e t m (cs : list call) :
  _worker (this w) = Some t →
  maxRetries (_options (this w)) = Fin m →
  0 ≤ m →
  forallb (λ c, negb (is_send c)) cs = true →
  Z.of_nat (length cs) ≤ MAX_EXACT →
  run (CallSend request s e :: cs) w = (Normal tt, w') →
  count (is_start_of s) (trace w') = S (count (is_start_of s) (trace w)) ∧
  count (is_end_of e) (trace w') =
    (count (is_end_of e) (trace w) + messages cs
     + Z.to_nat (Z.max 0 (Z.of_nat (respawns cs) - m)%Z))%nat.
Proof.
  intros Ht Hm Hm0 Hns Hlen Hrun.
  rewrite run_cons in Hrun. cbn [perform] in Hrun. rewrite (send_Some _ _ _ _ _ Ht) in Hrun.
  set (w1 := {| this := _; threads := _; trace := _ |}) in Hrun.
  pose proof (respawns_le_length cs) as Hle.
  destruct (run_after_send cs w1 w' e 0 m) as (_ & _ & _ & Hs & Hc); try done.
  { fold (respawns cs). lia. }
  fold (respawns cs) in Hc. fold (messages cs) in Hc.
  split.
  - rewrite Hs. unfold w1. cbn [trace]. rewrite count_app. cbn.
    rewrite bool_decide_eq_true_2 by done. cbn. lia.
  - rewrite Hc. unfold w1. cbn [trace]. rewrite count_app. cbn.
    replace (0 + Z.of_nat (respawns cs) - 0 `max` m) with (Z.of_nat (respawns cs) - m) by lia.
    lia.
Qed.



(** C5.  A message whose tag is none of [OK], [CLIENT_ERROR] and
    [SETUP_ERROR] makes [onMessage] throw a [TypeError] whose message names
    the tag.  Nothing else happens: no hook is called, no thread is started,
    no field changes. *)
Theorem unrecognized_tag_throws (response : list value) (w : world) :
  index response 0 ≠ VNum (Fin PARENT_MESSAGE_OK) →
  index response 0 ≠ VNum (Fin PARENT_MESSAGE_CLIENT_ERROR) →
  index response 0 ≠ VNum (Fin PARENT_MESSAGE_SETUP_ERROR) →
  onMessage response w =
    (Throw (TypeError ("Unexpected response from worker: " +:+ ToString (index response 0))),
     w).
Proof.
  intros Hok Hclient Hsetup.
  apply onMessage_default.
  - destruct (is_tag _ PARENT_MESSAGE_OK) eqn:Hq; [|done]. by apply is_tag_true in Hq.
  - destruct (is_tag _ PARENT_MESSAGE_CLIENT_ERROR) eqn:Hq; [|done]. by apply is_tag_true in Hq.
  - destruct (is_tag _ PARENT_MESSAGE_SETUP_ERROR) eqn:Hq; [|done]. by apply is_tag_true in Hq.
Qed.

(** C6.  [onExit] with an exit code other than the number [0] is
    [initialize]: a new thread is created, becomes the thread of the worker
    and is sent [INITIALIZE].  [onExit] with code [0] does nothing. *)
Theorem exit_respawns_unless_zero (exitCode : value) (w : world) :
  onExit (VNum (Fin 0)) w = (Normal tt, w) ∧
  (exitCode ≠ VNum (Fin 0) →
   onExit exitCode w = initialize w ∧
   ∃ rest,
     (onExit exitCode w).2 = emits rest (respawned w) ∧
     count is_spawn rest = 0%nat ∧
     _worker (this (onExit exitCode w).2) = Some (threads w) ∧
     threads (onExit exitCode w).2 = S (threads w) ∧
     count is_spawn (trace (onExit exitCode w).2) = S (count is_spawn (trace w))).
Proof.
  split; [apply onExit_zero|].
  intros Hcode. rewrite (onExit_nonzero _ _ Hcode). split; [done|].
  destruct (initialize_respawns w) as (rest & Hw & Hrest).
  exists rest. rewrite Hw. repeat split; try done.
  unfold emits, respawned. cbn [trace]. rewrite !count_app, Hrest. cbn. lia.
Qed.


(** C8.  [send] calls the start callback with the worker as it is, then
    stores the completion hook and sets the retry counter to [0], then posts
    the request to the thread: the callback sees the old counter, and a
    worker without a thread fails at the posting, callback called and counter
    reset. *)
Theorem send_dispatch_order (request : list value) (s : OnStart) (e : OnEnd) (w : world) :
  let self := set_retries (Fin 0) (set_onProcessEnd e (this w)) in
  _retries self = Some (Fin 0) ∧
  (∀ t, _worker (this w) = Some t →
     send request s e w =
       (Normal tt,
        {| this := self; threads := threads w;
           trace := trace w ++ [OnProcessStart s (this w); PostMessage t request] |})) ∧
  (_worker (this w) = None →
     send request s e w =
       (Throw (TypeError "Cannot read property 'postMessage' of undefined"),
        {| this := self; threads := threads w;
           trace := trace w ++ [OnProcessStart s (this w)] |})).
Proof.
  cbv zeta. split; [done|]. split.
  - intros t Ht. by apply send_Some.
  - intros Ht. by rewrite send_unfold, Ht.
Qed.

(** C9.  The constructor leaves the retry counter, which nothing has
    assigned, at [NaN]; so does every [initialize] that follows, called
    directly or by [onExit], until the first [send].  Whatever [maxRetries]
    is, none of them finds the counter above it: they all complete, and no
    completion hook is called. *)
Theorem retries_NaN_before_first_send (options : WorkerOptions) (n : nat)
    (exits : list (option value)) :
  ∃ w0 w',
    constructor options n = (Normal tt, w0) ∧
    _retries (this w0) = Some NaN ∧
    run (respawn_call <$> exits) w0 = (Normal tt, w') ∧
    _retries (this w') = Some NaN ∧
    gt (add1 (ToNumber (_retries (this w')))) (maxRetries (_options (this w'))) = false ∧
    _options (this w') = options ∧
    count is_end (trace w') = 0%nat.
Proof.
  unfold constructor.
  set (w := {| this := _; threads := n; trace := [] |}).
  destruct (initialize_before_send w) as [Hinit Hnan]; [done | by left |].
  destruct (run_before_send exits (respawned w)) as (w' & Hrun & _ & Hr & Ho & Hc);
    [done | by right |].
  assert (_retries (this w') = Some NaN) as Hnan'
    by (destruct Hr as [Hr|Hr]; [by rewrite Hr | done]).
  exists (respawned w), w'. rewrite Hnan', Hc.
  repeat split; done.
Qed.

(** C10.  A [CLIENT_ERROR] message whose payload is [null], [undefined] or
    not of type ['object'] is not rebuilt: the completion hook is called
    with the payload itself as the error, and [null] as the result. *)
Theorem client_error_raw_payload (response : list value) (w : world) :
  index response 0 = VNum (Fin PARENT_MESSAGE_CLIENT_ERROR) →
  is_object (index response 4) = false →
  onMessage response w = call_onProcessEnd (index response 4) VNull w ∧
  ∀ e, _onProcessEnd (this w) = Some e →
    onMessage response w =
      (Normal tt, emits [OnProcessEnd e (index response 4) VNull] w).
Proof.
  intros Ht Hraw. rewrite (onMessage_CLIENT_ERROR_raw _ _ Ht Hraw).
  split; [done|]. intros e He. by apply call_onProcessEnd_Some.
Qed.

End Properties.

(** * The properties at work, and where the claims fail *)

(** C1 at work: [maxRetries = 2]; the third [initialize] after a [send] is
    the one that calls the hook. *)
Lemma initialize_retry_bound_witness :
  ∃ w',
    run (host := node) (tags := jest_tags)
      (CallSend a_request (OnStartFn 0) (OnEndFn 0) :: replicate 3 CallInitialize)
      (fresh (Fin 2)) = (Normal tt, w') ∧
    _retries (this w') = Some (Fin 3) ∧
    count (is_end_of (OnEndFn 0)) (trace w') = 1%nat.
Proof.
  destruct (initialize_retry_bound (host := node) (tags := jest_tags) (fresh (Fin 2)))
    as (_ & _ & _ & _ & Hrun).
  destruct (Hrun a_request (OnStartFn 0) (OnEndFn 0) 0%nat 2 3%nat)
    as (w' & Hw' & Hr & Hc); [reflexivity | reflexivity | by vm_compute | by vm_compute |].
  exists w'. split; [exact Hw' | split; [exact Hr | exact Hc]].
Defined.

(** C2 fails: with [maxRetries = 0], two exits with a non-zero code after a
    [send] call the completion hook of the one call twice; and with
    [maxRetries = 3], after one such exit the hook has not been called and
    all that was done is the respawn: the request went to the thread that
    is gone and is not posted again. *)
Lemma call_resolved_twice_or_not_at_all :
  (let w' := (run (host := node) (tags := jest_tags)
                [CallSend a_request (OnStartFn 0) (OnEndFn 0);
                 CallOnExit (VNum (Fin 1)); CallOnExit (VNum (Fin 1))]
                (fresh (Fin 0))).2 in
   count (is_end_of (OnEndFn 0)) (trace w') = 2%nat) ∧
  (let w' := (run (host := node) (tags := jest_tags)
                [CallSend a_request (OnStartFn 0) (OnEndFn 0);
                 CallOnExit (VNum (Fin 1))]
                (fresh (Fin 3))).2 in
   count is_end (trace w') = 0%nat ∧
   drop 4 (trace w') =
     [OnProcessStart (OnStartFn 0) (this (fresh (Fin 3)));
      PostMessage 0 a_request;
      NewWorker 1 (VNum (Fin 1)) VUndefined; On 1 "message"; On 1 "exit";
      PostMessage 1 [VNum (Fin 0); VBool false; VStr "/module.js"; VUndefined]]).
Proof. cbv zeta. split; [|split]; by vm_compute. Qed.

(** C2 as amended, at work: [maxRetries = 1] and three exits with a non-zero
    code; the hook is called twice. *)
Lemma call_lifetime_resolutions_witness :
  let cs := [CallOnExit (VNum (Fin 1)); CallOnExit (VNum (Fin 1));
             CallOnExit (VNum (Fin 1))] in
  let w' := (run (host := node) (tags := jest_tags)
               (CallSend a_request (OnStartFn 0) (OnEndFn 0) :: cs) (fresh (Fin 1))).2 in
  count (is_start_of (OnStartFn 0)) (trace w') = 1%nat ∧
  count (is_end_of (OnEndFn 0)) (trace w') = 2%nat.
Proof.
  cbv zeta.
  pose proof (call_lifetime_resolutions (host := node) (tags := jest_tags)
    (fresh (Fin 1))
    (run (host := node) (tags := jest_tags)
       [CallSend a_request (OnStartFn 0) (OnEndFn 0); CallOnExit (VNum (Fin 1));
        CallOnExit (VNum (Fin 1)); CallOnExit (VNum (Fin 1))] (fresh (Fin 1))).2
    a_request (OnStartFn 0) (OnEndFn 0) 0%nat 1
    [CallOnExit (VNum (Fin 1)); CallOnExit (VNum (Fin 1)); CallOnExit (VNum (Fin 1))])
    as Hlife.
  apply Hlife; by vm_compute.
Defined.





Lemma unrecognized_tag_throws_witness :
  onMessage (host := node) (tags := jest_tags) [VNum (Fin 7); VStr "progress"] (busy (Fin 3)) =
    (Throw (TypeError "Unexpected response from worker: 7"), busy (Fin 3)).
Proof.
  apply (unrecognized_tag_throws (host := node) (tags := jest_tags)); discriminate.
Defined.

Lemma exit_respawns_unless_zero_witness :
  onExit (host := node) (tags := jest_tags) (VNum (Fin 1)) (busy (Fin 3))
    = initialize (host := node) (tags := jest_tags) (busy (Fin 3)) ∧
  _worker (this (onExit (host := node) (tags := jest_tags) (VNum (Fin 1)) (busy (Fin 3))).2)
    = Some 1%nat.
Proof.
  destruct (exit_respawns_unless_zero (host := node) (tags := jest_tags)
              (VNum (Fin 1)) (busy (Fin 3))) as [_ Hexit].
  destruct Hexit as (Hinit & rest & _ & _ & Hworker & _); [discriminate|].
  split; [exact Hinit | exact Hworker].
Defined.



Lemma send_dispatch_order_witness :
  send a_request (OnStartFn 0) (OnEndFn 0) (fresh (Fin 3)) =
    (Normal tt,
     {| this := set_retries (Fin 0) (set_onProcessEnd (OnEndFn 0) (this (fresh (Fin 3))));
        threads := 1;
        trace := trace (fresh (Fin 3)) ++
                 [OnProcessStart (OnStartFn 0) (this (fresh (Fin 3)));
                  PostMessage 0 a_request] |}).
Proof.
  destruct (send_dispatch_order a_request (OnStartFn 0) (OnEndFn 0) (fresh (Fin 3)))
    as (_ & Hsend & _).
  exact (Hsend 0%nat eq_refl).
Defined.

Lemma client_error_raw_payload_witness :
  onMessage (host := node) (tags := jest_tags)
    [VNum (Fin 1); VStr "Number"; VUndefined; VUndefined; VNum (Fin 7)] (busy (Fin 3)) =
    (Normal tt, emits [OnProcessEnd (OnEndFn 0) (VNum (Fin 7)) VNull] (busy (Fin 3))).
Proof.
  destruct (client_error_raw_payload (host := node) (tags := jest_tags)
              [VNum (Fin 1); VStr "Number"; VUndefined; VUndefined; VNum (Fin 7)]
              (busy (Fin 3))) as [_ Hhook]; [reflexivity | reflexivity |].
  exact (Hhook (OnEndFn 0) eq_refl).
Defined.

(** * More of the worker: what every history keeps *)

Section HistoryLemmas.
Context {host : Host} {tags : MessageTags}.

Lemma after_snoc cs c w : after (cs ++ [c]) w = (perform c (after cs w)).2.
Proof. unfold after. by rewrite foldl_app. Qed.

(** [initialize] throws only for want of a hook. *)
Lemma initialize_Normal w :
  (_onProcessEnd (this w) = None → _retries (this w) = None ∨ _retries (this w) = Some NaN) →
  ∃ rest, initialize w = (Normal tt, emits rest (respawned w)) ∧
          count is_spawn rest = 0%nat ∧ count is_post rest = 0%nat ∧
          count is_listener rest = 0%nat ∧ count is_start rest = 0%nat.
Proof.
  intros Hhook. destruct (_onProcessEnd (this w)) as [e|] eqn:He.
  - rewrite initialize_unfold. destruct (gt _ _).
    + rewrite (onMessage_retries_exceeded _ (respawned w) e) by done.
      by eexists.
    + exists []. unfold emits. cbn. by rewrite app_nil_r.
  - destruct (initialize_before_send w He (Hhook eq_refl)) as [-> _].
    exists []. unfold emits. cbn. by rewrite app_nil_r.
Qed.

Lemma counter_matches_hook_respawned w :
  counter_matches_hook (this w) → counter_matches_hook (this (respawned w)).
Proof.
  rewrite respawned_this.
  intros [[He Hr] | (e & r & He & Hr & Hr0)]; [left | right].
  - cbn. by rewrite He, Hr.
  - exists e. cbn. rewrite He, Hr. cbn.
    destruct (Z.ltb_spec r MAX_EXACT).
    + exists (r + 1). repeat split; try done; lia.
    + exists r. repeat split; try done; lia.
Qed.

(** What one call does to the fields, the threads and the trace. *)
Lemma perform_step c w :
  _worker (this w) = Some (pred (threads w)) →
  (0 < threads w)%nat →
  counter_matches_hook (this w) →
  let w' := (perform c w).2 in
  _worker (this w') = Some (pred (threads w')) ∧
  (0 < threads w')%nat ∧
  counter_matches_hook (this w') ∧
  _options (this w') = _options (this w) ∧
  threads w' = (threads w + if is_respawn c then 1 else 0)%nat ∧
  count is_spawn (trace w') = (count is_spawn (trace w) + if is_respawn c then 1 else 0)%nat ∧
  count is_listener (trace w') =
    (count is_listener (trace w) + if is_respawn c then 2 else 0)%nat ∧
  count is_post (trace w') =
    (count is_post (trace w) + if is_respawn c || is_send c then 1 else 0)%nat ∧
  count is_start (trace w') = (count is_start (trace w) + if is_send c then 1 else 0)%nat.
Proof.
  intros Hworker Hthreads Hcounter. cbv zeta.
  assert (Hinit :
    let w' := (initialize w).2 in
    _worker (this w') = Some (pred (threads w')) ∧
    (0 < threads w')%nat ∧
    counter_matches_hook (this w') ∧
    _options (this w') = _options (this w) ∧
    threads w' = (threads w + 1)%nat ∧
    count is_spawn (trace w') = (count is_spawn (trace w) + 1)%nat ∧
    count is_listener (trace w') = (count is_listener (trace w) + 2)%nat ∧
    count is_post (trace w') = (count is_post (trace w) + 1)%nat ∧
    count is_start (trace w') = (count is_start (trace w) + 0)%nat).
  { cbv zeta.
    destruct (initialize_Normal w) as (rest & -> & Hs & Hp & Hl & Hst).
    { intros He. destruct Hcounter as [[_ Hr] | (e & r & He' & _)]; [by right | congruence]. }
    cbn [snd emits this threads trace].
    pose proof (counter_matches_hook_respawned w Hcounter) as Hc.
    repeat split; try done.
    - cbn. lia.
    - cbn. lia.
    - unfold respawned. cbn [trace]. rewrite !count_app, Hs. cbn. lia.
    - unfold respawned. cbn [trace]. rewrite !count_app, Hl. cbn. lia.
    - unfold respawned. cbn [trace]. rewrite !count_app, Hp. cbn. lia.
    - unfold respawned. cbn [trace]. rewrite !count_app, Hst. cbn. lia. }
  destruct c as [|response|code|request s e].
  - cbn [is_respawn is_send orb]. apply Hinit.
  - cbn [perform is_respawn is_send orb].
    destruct (onMessage_frame response w) as [-> | (e & error & result & _ & ->)].
    + repeat split; try done; lia.
    + cbn [snd emits this threads trace]. rewrite !count_app. cbn.
      repeat split; try done; lia.
  - cbn [perform is_respawn is_send]. unfold onExit.
    destruct (negb (is_tag code 0)) eqn:Hcode.
    + cbn [orb]. apply Hinit.
    + cbn. repeat split; try done; lia.
  - cbn [perform is_respawn is_send orb].
    rewrite (send_Some _ _ _ _ _ Hworker). cbn [snd this threads trace].
    rewrite !count_app. cbn.
    repeat split; try done; try lia.
    right. exists e, 0. by repeat split.
Qed.

(** The same along a history. *)
Lemma history_steps options n cs :
  let w := history options n cs in
  _worker (this w) = Some (pred (threads w)) ∧
  (0 < threads w)%nat ∧
  counter_matches_hook (this w) ∧
  _options (this w) = options ∧
  threads w = (n + 1 + respawns cs)%nat ∧
  count is_spawn (trace w) = (1 + respawns cs)%nat ∧
  count is_listener (trace w) = (2 * (1 + respawns cs))%nat ∧
  count is_post (trace w) = (1 + respawns cs + sends cs)%nat ∧
  count is_start (trace w) = sends cs.
Proof.
  cbv zeta. unfold history.
  induction cs as [|c cs IH] using rev_ind.
  - unfold after, constructor. cbn [foldl].
    set (w := {| this := _; threads := n; trace := [] |}).
    destruct (initialize_before_send w) as [-> _]; [done | by left |].
    cbn. repeat split; try done; try lia. by left.
  - rewrite after_snoc.
    destruct IH as (Hw & Ht & Hc & Ho & Hth & Hs & Hl & Hp & Hst).
    destruct (perform_step c _ Hw Ht Hc)
      as (Hw' & Ht' & Hc' & Ho' & Hth' & Hs' & Hl' & Hp' & Hst').
    unfold respawns, sends in *. rewrite !List.filter_app, !length_app. cbn [List.filter].
    repeat split; try done.
    + by rewrite Ho'.
    + rewrite Hth', Hth. destruct (is_respawn c); cbn; lia.
    + rewrite Hs', Hs. destruct (is_respawn c); cbn; lia.
    + rewrite Hl', Hl. destruct (is_respawn c); cbn; lia.
    + rewrite Hp', Hp. destruct c as [| |code|]; cbn; try lia.
      destruct (negb (is_tag code 0)); cbn; lia.
    + rewrite Hst', Hst. destruct (is_send c); cbn; lia.
Qed.

(** What one call adds to the trace. *)
Lemma perform_trace c w :
  _worker (this w) = Some (pred (threads w)) →
  ∃ rest,
    trace (perform c w).2 =
      (trace w ++
       (if is_respawn c then
          [NewWorker (threads w) (workerId (_options (this w)))
             (forkOptions (_options (this w)));
           On (threads w) "message"; On (threads w) "exit";
           PostMessage (threads w) (INITIALIZE (_options (this w)))]
        else match c with
             | CallSend request s _ =>
                 [OnProcessStart s (this w); PostMessage (pred (threads w)) request]
             | _ => []
             end) ++ rest)%list ∧
    (rest = [] ∨ ∃ e error result, rest = [OnProcessEnd e error result]).
Proof.
  intros Hworker.
  assert (Hinit : ∃ rest,
    trace (initialize w).2 =
      (trace w ++
       [NewWorker (threads w) (workerId (_options (this w)))
          (forkOptions (_options (this w)));
        On (threads w) "message"; On (threads w) "exit";
        PostMessage (threads w) (INITIALIZE (_options (this w)))] ++ rest)%list ∧
    (rest = [] ∨ ∃ e error result, rest = [OnProcessEnd e error result])).
  { rewrite initialize_unfold. destruct (gt _ _).
    - destruct (onMessage_frame
                  (retries_exceeded (captureStackTrace (S (threads w)))) (respawned w))
        as [-> | (e & error & result & _ & ->)].
      + exists []. split; [|by left]. by rewrite app_nil_r.
      + exists [OnProcessEnd e error result]. split; [|right; by eauto].
        cbn [snd emits trace respawned]. by rewrite <- app_assoc.
    - exists []. split; [|by left]. by rewrite app_nil_r. }
  destruct c as [|response|code|request s e].
  - apply Hinit.
  - cbn [perform is_respawn].
    destruct (onMessage_frame response w) as [-> | (e & error & result & _ & ->)].
    + exists []. split; [|by left]. by rewrite !app_nil_r.
    + exists [OnProcessEnd e error result]. split; [done | right; by eauto].
  - cbn [perform is_respawn]. unfold onExit.
    destruct (negb (is_tag code 0)); [apply Hinit|].
    exists []. split; [|by left]. by rewrite !app_nil_r.
  - cbn [perform is_respawn]. rewrite (send_Some _ _ _ _ _ Hworker).
    exists []. split; [|by left]. by rewrite !app_nil_r.
Qed.

Lemma posts_of_snoc options t cs c :
  posts_of options t (cs ++ [c]) =
    (posts_of options t cs ++
     (if is_respawn c then [(S (t + respawns cs), INITIALIZE options)]
      else match c with
           | CallSend request _ _ => [((t + respawns cs)%nat, request)]
           | _ => []
           end))%list.
Proof.
  revert t. unfold respawns.
  induction cs as [|c' cs IH]; intros t.
  - cbn. rewrite Nat.add_0_r. destruct (is_respawn c); [done|]. by destruct c.
  - cbn [app posts_of List.filter]. destruct (is_respawn c') eqn:Hc'.
    + rewrite IH. cbn [length]. rewrite Nat.add_succ_comm. done.
    + destruct c'; rewrite IH; done.
Qed.

(** The threads, the listeners, the messages and the start callbacks of a
    history. *)
Lemma history_traces options n cs :
  let tr := trace (history options n cs) in
  spawned tr = seq n (1 + respawns cs) ∧
  listeners tr = (t ← seq n (1 + respawns cs); [(t, "message"); (t, "exit")]) ∧
  posted tr = (n, INITIALIZE options) :: posts_of options n cs ∧
  started tr = start_hooks cs.
Proof.
  cbv zeta. induction cs as [|c cs IH] using rev_ind.
  - unfold history, after, constructor. cbn [foldl].
    set (w := {| this := _; threads := n; trace := [] |}).
    destruct (initialize_before_send w) as [-> _]; [done | by left |].
    done.
  - destruct IH as (Hs & Hl & Hp & Hst).
    destruct (history_steps options n cs) as (Hw & _ & _ & Ho & Hth & _).
    unfold history in *. rewrite after_snoc.
    destruct (perform_trace c _ Hw) as (rest & -> & Hrest).
    rewrite Ho, Hth.
    assert (spawned rest = [] ∧ listeners rest = [] ∧ posted rest = [] ∧ started rest = [])
      as (Hrs & Hrl & Hrp & Hrst)
      by (by destruct Hrest as [-> | (e & error & result & ->)]).
    unfold spawned, listeners, posted, started in *.
    rewrite !omap_app, Hs, Hl, Hp, Hst, Hrs, Hrl, Hrp, Hrst, !app_nil_r.
    rewrite posts_of_snoc. unfold start_hooks. rewrite omap_app.
    assert (respawns (cs ++ [c]) = (respawns cs + if is_respawn c then 1 else 0)%nat)
      as ->.
    { unfold respawns. rewrite List.filter_app, length_app. cbn [List.filter].
      by destruct (is_respawn c). }
    generalize (respawns cs). intros r.
    destruct (is_respawn c) eqn:Hc.
    + assert (seq n (1 + (r + 1)) = (seq n (1 + r) ++ [(n + 1 + r)%nat])%list) as ->.
      { replace (1 + (r + 1))%nat with (S (1 + r)) by lia.
        rewrite seq_S. do 2 f_equal. lia. }
      rewrite bind_app.
      replace (S (n + r)) with (n + 1 + r)%nat by lia.
      repeat split; try done.
      by destruct c.
    + rewrite Nat.add_0_r.
      destruct c as [| | |request s e]; cbn [omap list_omap app];
        rewrite ?app_nil_r; try done.
      repeat split; try done.
      replace (pred (n + 1 + r)) with (n + r)%nat by lia. done.
Qed.

End HistoryLemmas.

Section HistoryProperties.
Context {host : Host} {tags : MessageTags}.

Lemma perform_hook c w :
  _onProcessEnd (this (perform c w).2) =
    match c with
    | CallSend _ _ e => Some e
    | _ => _onProcessEnd (this w)
    end.
Proof.
  assert (Hinit : _onProcessEnd (this (initialize w).2) = _onProcessEnd (this w))
    by (by destruct (initialize_respawns w) as (rest & -> & _)).
  destruct c as [|response|code|request s e]; cbn [perform]; [done| | |].
  - by destruct (onMessage_frame response w) as [-> | (e & error & result & _ & ->)].
  - unfold onExit. by destruct (negb _).
  - rewrite send_unfold. by destruct (_worker (this w)).
Qed.

Lemma perform_no_hook c w :
  _onProcessEnd (this w) = None →
  (_retries (this w) = None ∨ _retries (this w) = Some NaN) →
  is_send c = false →
  let w' := (perform c w).2 in
  _onProcessEnd (this w') = None ∧
  (_retries (this w') = None ∨ _retries (this w') = Some NaN) ∧
  count is_end (trace w') = count is_end (trace w).
Proof.
  intros He Hr Hc. cbv zeta.
  assert (Hinit : let w' := (initialize w).2 in
                  _onProcessEnd (this w') = None ∧
                  (_retries (this w') = None ∨ _retries (this w') = Some NaN) ∧
                  count is_end (trace w') = count is_end (trace w)).
  { cbv zeta. destruct (initialize_before_send w He Hr) as [-> Hnan].
    cbn [snd]. repeat split; [done | by right |].
    unfold respawned. cbn [trace]. rewrite count_app. cbn. lia. }
  destruct c as [|response|code|request s e]; cbn [perform]; [done| | |done].
  - destruct (onMessage_frame response w) as [-> | (e & error & result & He' & _)];
      [done | congruence].
  - unfold onExit. by destruct (negb _).
Qed.

(** X1.  The options a worker was built with stay its options, so
    [getWorkerId] answers the same id after any calls; each respawn creates
    one thread, and the thread of the worker is always the last one
    created. *)
Theorem worker_identity_kept (options : WorkerOptions) (n : nat) (cs : list call) :
  let w := history options n cs in
  _options (this w) = options ∧
  getWorkerId w = (Normal (workerId options), w) ∧
  threads w = (n + 1 + respawns cs)%nat ∧
  _worker (this w) = Some (n + respawns cs)%nat ∧
  count is_spawn (trace w) = (1 + respawns cs)%nat.
Proof.
  cbv zeta.
  destruct (history_steps options n cs) as (Hw & _ & _ & Ho & Hth & Hs & _).
  repeat split; try done.
  - unfold getWorkerId, read, mbind, M_bind, mret, M_ret. by rewrite Ho.
  - rewrite Hw, Hth. f_equal. lia.
Qed.

(** X2.  After any calls the completion hook in place is that of the last
    [send], none before the first; and the retry counter is [NaN] as long
    as there is no hook, a count between [0] and [2^53] from then on. *)
Theorem counter_goes_with_hook (options : WorkerOptions) (n : nat) (cs : list call) :
  let o := this (history options n cs) in
  _onProcessEnd o = last_hook cs ∧
  match _onProcessEnd o with
  | None => _retries o = Some NaN
  | Some _ => ∃ r, _retries o = Some (Fin r) ∧ 0 ≤ r ≤ MAX_EXACT
  end.
Proof.
  cbv zeta. split.
  - unfold history, last_hook. induction cs as [|c cs IH] using rev_ind.
    + unfold after, constructor. cbn [foldl].
      by destruct (initialize_respawns
           {| this := {| _worker := None; _options := options;
                         _onProcessEnd := None; _retries := None |};
              threads := n; trace := [] |}) as (rest & -> & _).
    + rewrite after_snoc, perform_hook, foldl_app. cbn [foldl].
      by destruct c.
  - destruct (history_steps options n cs) as (_ & _ & Hc & _).
    destruct Hc as [[-> Hr] | (e & r & -> & Hr & Hr0)]; [done | by exists r].
Qed.

(** X3.  On a built worker whose options hold data that a thread can be
    given, after any calls, [initialize] and [onExit] do not throw, and
    neither does [send] with a request of such data: the thread is there,
    and the retries are found exceeded only when a completion hook is in
    place.  (The callbacks are taken to return.) *)
Theorem respawn_and_send_complete (options : WorkerOptions) (n : nat) (cs : list call)
    (exitCode : value) (request : list value) (s : OnStart) (e : OnEnd) :
  plain_data (forkOptions options) →
  plain_data (workerId options) →
  plain_data (workerPath options) →
  plain_data (setupArgs options) →
  Forall plain_data request →
  let w := history options n cs in
  (∃ w', initialize w = (Normal tt, w')) ∧
  (∃ w', onExit exitCode w = (Normal tt, w')) ∧
  (∃ w', send request s e w = (Normal tt, w')) ∧
  (∃ t, _worker (this w) = Some t) ∧
  (gt (add1 (ToNumber (_retries (this w)))) (maxRetries (_options (this w))) = true →
   ∃ e', _onProcessEnd (this w) = Some e').
Proof.
  intros _ _ _ _ _. cbv zeta.
  destruct (history_steps options n cs) as (Hw & _ & Hc & _).
  assert (∃ w', initialize (history options n cs) = (Normal tt, w')) as Hinit.
  { destruct (initialize_Normal (history options n cs)) as (rest & -> & _); [|by eexists].
    intros He. destruct Hc as [[_ Hr] | (e' & r & He' & _)]; [by right | congruence]. }
  split; [done|]. split; [|split; [|split]].
  - unfold onExit. destruct (negb _); [done | by eexists].
  - rewrite (send_Some _ _ _ _ _ Hw). by eexists.
  - by eexists.
  - destruct Hc as [[_ Hr] | (e' & r & He' & _)]; [|by eexists].
    rewrite Hr. change (add1 (ToNumber (Some NaN))) with NaN. by rewrite gt_NaN_l.
Qed.

(** X4.  While no completion hook is in place, [onMessage] throws whatever
    the message is, and changes nothing; for an [OK] message, a
    [SETUP_ERROR] message and a [CLIENT_ERROR] message whose payload is no
    object it is the [TypeError] of calling what is no function. *)
Theorem message_without_hook_throws (response : list value) (w : world) :
  _onProcessEnd (this w) = None →
  (∃ exn, onMessage response w = (Throw exn, w)) ∧
  (index response 0 = VNum (Fin PARENT_MESSAGE_OK) ∨
   index response 0 = VNum (Fin PARENT_MESSAGE_SETUP_ERROR) ∨
   (index response 0 = VNum (Fin PARENT_MESSAGE_CLIENT_ERROR) ∧
    is_object (index response 4) = false) →
   onMessage response w =
     (Throw (TypeError "this._onProcessEnd is not a function"), w)).
Proof.
  intros He. split.
  - unfold onMessage.
    destruct (is_tag _ PARENT_MESSAGE_OK);
      [rewrite call_onProcessEnd_None by done; by eexists|].
    destruct (is_tag _ PARENT_MESSAGE_CLIENT_ERROR).
    + unfold mbind, M_bind. destruct (is_object (index response 4)).
      * rewrite rebuild_error_unfold. destruct (construct _ _); [|by eexists].
        destruct (rebuilt _ _ _); [|by eexists].
        rewrite call_onProcessEnd_None by done. by eexists.
      * cbn. rewrite call_onProcessEnd_None by done. by eexists.
    + destruct (is_tag _ PARENT_MESSAGE_SETUP_ERROR); [|by eexists].
      rewrite call_onProcessEnd_None by done. by eexists.
  - intros [Ht | [Ht | [Ht Hraw]]].
    + by rewrite (onMessage_OK _ _ Ht), call_onProcessEnd_None.
    + by rewrite (onMessage_SETUP_ERROR _ _ Ht), call_onProcessEnd_None.
    + by rewrite (onMessage_CLIENT_ERROR_raw _ _ Ht Hraw), call_onProcessEnd_None.
Qed.

(** X5.  After any calls on a built worker, the messages posted are, in
    order, [INITIALIZE] to the first thread and what the calls ask for: a
    respawn posts [INITIALIZE] to the thread it creates and nothing else,
    so never a request again, and a [send] posts its request, once, to the
    thread of the worker, the last one created.  The threads are created
    one by respawn, each got a ['message'] and an ['exit'] listener, and the
    start callbacks called are those of the calls of [send], in order. *)
Theorem requests_posted_once (options : WorkerOptions) (n : nat) (cs : list call) :
  let tr := trace (history options n cs) in
  spawned tr = seq n (1 + respawns cs) ∧
  listeners tr = (t ← seq n (1 + respawns cs); [(t, "message"); (t, "exit")]) ∧
  posted tr = (n, INITIALIZE options) :: posts_of options n cs ∧
  started tr = start_hooks cs ∧
  (∀ c, is_respawn c = true →
     posted (trace (history options n (cs ++ [c]))) =
       (posted tr ++ [((n + 1 + respawns cs)%nat, INITIALIZE options)])%list) ∧
  (∀ request s e,
     posted (trace (history options n (cs ++ [CallSend request s e]))) =
       (posted tr ++ [((n + respawns cs)%nat, request)])%list).
Proof.
  cbv zeta.
  destruct (history_traces options n cs) as (Hs & Hl & Hp & Hst).
  split; [done|]. split; [done|]. split; [done|]. split; [done|].
  split.
  - intros c Hc.
    destruct (history_traces options n (cs ++ [c])) as (_ & _ & Hp' & _).
    rewrite Hp', Hp, posts_of_snoc, Hc.
    replace (S (n + respawns cs)) with (n + 1 + respawns cs)%nat by lia. done.
  - intros request s e.
    destruct (history_traces options n (cs ++ [CallSend request s e])) as (_ & _ & Hp' & _).
    by rewrite Hp', Hp, posts_of_snoc.
Qed.

(** X6.  A [send] answered by an [OK] message: the start callback is called,
    the request posted to the thread, and the completion hook of that [send]
    called with no error and the result of the message, as it arrived. *)
Theorem send_then_OK (request response : list value) (s : OnStart) (e : OnEnd)
    (w : world) (t : nat) :
  _worker (this w) = Some t →
  index response 0 = VNum (Fin PARENT_MESSAGE_OK) →
  run [CallSend request s e; CallOnMessage response] w =
    (Normal tt,
     {| this := set_retries (Fin 0) (set_onProcessEnd e (this w));
        threads := threads w;
        trace := trace w ++ [OnProcessStart s (this w); PostMessage t request;
                             OnProcessEnd e VNull (index response 1)] |}).
Proof.
  intros Ht Hok.
  rewrite run_cons. cbn [perform]. rewrite (send_Some _ _ _ _ _ Ht).
  rewrite run_cons. cbn [perform]. rewrite (onMessage_OK _ _ Hok).
  rewrite (call_onProcessEnd_Some _ _ _ e) by done.
  unfold emits. cbn. by rewrite <- app_assoc.
Qed.

(** X7.  Before the first [send] no completion hook is ever called, whatever
    messages and exits arrive. *)
Theorem no_resolution_before_send (options : WorkerOptions) (n : nat) (cs : list call) :
  sends cs = 0%nat →
  count is_end (trace (history options n cs)) = 0%nat.
Proof.
  intros Hsends. unfold history.
  assert (Hgen : ∀ w, _onProcessEnd (this w) = None →
                      (_retries (this w) = None ∨ _retries (this w) = Some NaN) →
                      count is_end (trace (after cs w)) = count is_end (trace w)).
  { unfold sends in Hsends. induction cs as [|c cs IH]; intros w He Hr; [done|].
    cbn [List.filter] in Hsends. destruct (is_send c) eqn:Hc; [discriminate|].
    destruct (perform_no_hook c w He Hr Hc) as (He' & Hr' & Hcount).
    unfold after. cbn [foldl]. fold (after cs (perform c w).2).
    by rewrite IH. }
  unfold constructor.
  set (w := {| this := _; threads := n; trace := [] |}).
  destruct (initialize_before_send w) as [Hinit Hnan]; [done | by left |].
  rewrite Hinit. cbn [snd]. rewrite Hgen; [| done | by right].
  by unfold respawned.
Qed.

End HistoryProperties.

Lemma respawn_and_send_complete_witness :
  let w := history (host := node) (tags := jest_tags) (options_of (Fin 0)) 0
             [CallSend a_request (OnStartFn 0) (OnEndFn 0); CallOnExit (VNum (Fin 1))] in
  (∃ w', initialize (host := node) (tags := jest_tags) w = (Normal tt, w')) ∧
  (∃ w', onExit (host := node) (tags := jest_tags) (VNum (Fin 1)) w = (Normal tt, w')) ∧
  (∃ w', send a_request (OnStartFn 1) (OnEndFn 1) w = (Normal tt, w')).
Proof.
  cbv zeta.
  destruct (respawn_and_send_complete (host := node) (tags := jest_tags)
              (options_of (Fin 0)) 0
              [CallSend a_request (OnStartFn 0) (OnEndFn 0); CallOnExit (VNum (Fin 1))]
              (VNum (Fin 1)) a_request (OnStartFn 1) (OnEndFn 1))
    as (Hinit & Hexit & Hsend & _);
    [constructor | constructor | constructor | constructor | repeat constructor |].
  split; [exact Hinit|]. split; [exact Hexit | exact Hsend].
Defined.

Lemma message_without_hook_throws_witness :
  onMessage (host := node) (tags := jest_tags) [VNum (Fin 0); VStr "done"] (fresh (Fin 3)) =
    (Throw (TypeError "this._onProcessEnd is not a function"), fresh (Fin 3)).
Proof.
  destruct (message_without_hook_throws (host := node) (tags := jest_tags)
              [VNum (Fin 0); VStr "done"] (fresh (Fin 3))) as [_ Hthrow]; [reflexivity|].
  apply Hthrow. by left.
Defined.

Lemma send_then_OK_witness :
  run (host := node) (tags := jest_tags)
      [CallSend a_request (OnStartFn 0) (OnEndFn 0);
       CallOnMessage [VNum (Fin 0); VStr "done"]] (fresh (Fin 3)) =
    (Normal tt,
     {| this := set_retries (Fin 0) (set_onProcessEnd (OnEndFn 0) (this (fresh (Fin 3))));
        threads := 1;
        trace := trace (fresh (Fin 3)) ++
                 [OnProcessStart (OnStartFn 0) (this (fresh (Fin 3)));
                  PostMessage 0 a_request;
                  OnProcessEnd (OnEndFn 0) VNull (VStr "done")] |}).
Proof.
  apply (send_then_OK (host := node) (tags := jest_tags) a_request
           [VNum (Fin 0); VStr "done"] (OnStartFn 0) (OnEndFn 0) (fresh (Fin 3)) 0%nat);
    reflexivity.
Defined.

Lemma no_resolution_before_send_witness :
  count is_end
    (trace (history (host := node) (tags := jest_tags) (options_of (Fin 0)) 0
              [CallOnExit (VNum (Fin 1)); CallOnMessage [VNum (Fin 0); VStr "late"];
               CallOnExit (VNum (Fin 1))])) = 0%nat.
Proof.
  apply (no_resolution_before_send (host := node) (tags := jest_tags)). reflexivity.
Defined.

(** * The search for test files *)

Module SearchSourceFacts.
Import SearchSource.

(** The flag of the reducer is the conjunction of the cases, whatever the
    statistics. *)
Lemma try_cases_flag (testCases : list (string * (string → bool))) (p : string) :
  ∀ flag stats,
  (foldl (λ '(flag, stats) '(key, testCase),
            if testCase p : bool then (flag && true, count_pass key stats)
            else (false, count_fail key stats))
         (flag, stats) testCases).1
  = flag && forallb (λ '(key, testCase), testCase p) testCases.
Proof.
  induction testCases as [|[key testCase] testCases IH]; intros flag stats; cbn [foldl forallb].
  - by rewrite andb_true_r.
  - destruct (testCase p); rewrite IH.
    + by rewrite andb_true_r.
    + by rewrite andb_false_r.
Qed.

Lemma filter_paths_tests (testCases : list (string * (string → bool))) allPaths : ∀ stats,
  (filter_paths testCases allPaths stats).1 =
    List.filter (λ t, forallb (λ '(key, testCase), testCase (path t)) testCases) allPaths.
Proof.
  induction allPaths as [|t allPaths IH]; intros stats; [done|].
  cbn [filter_paths List.filter].
  pose proof (try_cases_flag testCases (path t) true stats) as Hflag.
  unfold try_cases.
  destruct (foldl _ (true, stats) testCases) as [flag stats1]. cbn [fst andb] in Hflag.
  specialize (IH stats1). destruct (filter_paths testCases allPaths stats1) as [kept stats2].
  cbn [fst] in IH |- *. rewrite <- Hflag, IH. by destruct flag.
Qed.

Lemma count_pass_counted key stats c :
  counted stats key c → c < MAX_EXACT →
  count_pass key stats = <[key := Fin (c + 1)]> stats.
Proof.
  intros [Hc [Hk | [Hk ->]]] Hmax; unfold count_pass; rewrite Hk; cbn.
  - rewrite (proj2 (Z.ltb_lt _ _) Hmax). cbn.
    rewrite insert_insert_eq. destruct (c + 1) eqn:Hz; try done; lia.
  - by rewrite insert_insert_eq.
Qed.

Lemma count_fail_counted key stats c :
  counted stats key c → count_fail key stats = <[key := Fin c]> stats.
Proof.
  intros [Hc [Hk | [Hk ->]]]; unfold count_fail; rewrite Hk; [|done].
  by destruct c.
Qed.

(** One path: each case adds one to its own statistic when the path passes
    it, and sets it when it was missing; the other keys are left alone. *)
Lemma try_cases_stats (testCases : list (string * (string → bool))) (p : string) :
  ∀ (flag : bool) (stats : gmap string number),
  NoDup testCases.*1 →
  (∀ (key : string) (testCase : string → bool), (key, testCase) ∈ testCases →
     ∃ c, counted stats key c ∧ c < MAX_EXACT) →
  let stats' : gmap string number :=
                (foldl (λ '(flag, stats) '(key, testCase),
                          if testCase p : bool then (flag && true, count_pass key stats)
                          else (false, count_fail key stats))
                       (flag, stats) testCases).2 in
  (∀ key : string, key ∉ (testCases.*1 : list string) → stats' !! key = stats !! key) ∧
  (∀ (key : string) (testCase : string → bool) (c : Z),
     (key, testCase) ∈ testCases → counted stats key c →
     stats' !! key = Some (Fin (c + if testCase p then 1 else 0))).
Proof.
  induction testCases as [|[key testCase] testCases IH]; intros flag stats Hnodup Hcounted;
    cbv zeta; cbn [foldl].
  - split; [done|]. intros key testCase c Hin. by apply elem_of_nil in Hin.
  - cbn [fmap list_fmap fst] in Hnodup. apply NoDup_cons in Hnodup as [Hfresh Hnodup].
    destruct (Hcounted key testCase) as (c0 & Hc0 & Hmax0); [by left|].
    set (stats1 := if testCase p then count_pass key stats else count_fail key stats).
    assert (Hstats1 : stats1 = <[key := Fin (c0 + if testCase p then 1 else 0)]> stats).
    { unfold stats1. destruct (testCase p).
      - by apply count_pass_counted.
      - rewrite Z.add_0_r. by apply count_fail_counted. }
    assert (Hstep : ∀ flag,
      (if testCase p then (flag && true, count_pass key stats)
       else (false, count_fail key stats))
      = (if testCase p then flag && true else false, stats1)).
    { intros f. unfold stats1. by destruct (testCase p). }
    rewrite Hstep.
    destruct (IH (if testCase p then flag && true else false) stats1 Hnodup) as [Hout Hin].
    { intros key' testCase' Hin'.
      assert (key' ≠ key) as Hne.
      { intros ->. apply Hfresh. apply list_elem_of_fmap. by exists (key, testCase'). }
      destruct (Hcounted key' testCase') as (c & [Hc Hk] & Hmax); [by right|].
      exists c. split; [|done]. split; [done|].
      by rewrite Hstats1, lookup_insert_ne. }
    split.
    + intros key' Hnotin.
      rewrite Hout.
      * rewrite Hstats1, lookup_insert_ne; [done|].
        intros ->. apply Hnotin. cbn. by left.
      * intros Hin'. apply Hnotin. cbn. by right.
    + intros key' testCase' c [Heq | Hin']%elem_of_cons [Hc Hk].
      * injection Heq as -> ->.
        rewrite Hout by done. rewrite Hstats1, lookup_insert_eq.
        destruct Hc0 as [_ Hk0].
        assert (c = c0) as -> by (destruct Hk as [Hk | [Hk ->]], Hk0 as [Hk0 | [Hk0 ->]];
                                   congruence).
        done.
      * assert (key' ≠ key) as Hne.
        { intros ->. apply Hfresh. apply list_elem_of_fmap. by exists (key, testCase'). }
        apply (Hin key' testCase' c Hin'). split; [done|].
        by rewrite Hstats1, lookup_insert_ne.
Qed.

Lemma passing_cons testCase t allPaths :
  passing testCase (t :: allPaths) =
    ((if testCase (path t) then 1 else 0) + passing testCase allPaths)%nat.
Proof. unfold passing. cbn [List.filter]. by destruct (testCase (path t)). Qed.

(** All the paths: the statistic of a case is the number of paths that
    pass it, once there is a path at all. *)
Lemma filter_paths_stats (testCases : list (string * (string → bool))) allPaths : ∀ stats,
  NoDup testCases.*1 →
  (∀ (key : string) (testCase : string → bool), (key, testCase) ∈ testCases →
     ∃ c, counted stats key c ∧ c + Z.of_nat (length allPaths) ≤ MAX_EXACT) →
  let stats' : gmap string number := (filter_paths testCases allPaths stats).2 in
  (∀ key : string, key ∉ (testCases.*1 : list string) → stats' !! key = stats !! key) ∧
  (allPaths = [] → stats' = stats) ∧
  (allPaths ≠ [] →
   ∀ (key : string) (testCase : string → bool) (c : Z),
     (key, testCase) ∈ testCases → counted stats key c →
     stats' !! key = Some (Fin (c + Z.of_nat (passing testCase allPaths)))).
Proof.
  induction allPaths as [|t allPaths IH]; intros stats Hnodup Hcounted; cbv zeta.
  - by repeat split.
  - cbn [filter_paths]. unfold try_cases.
    destruct (try_cases_stats testCases (path t) true stats Hnodup) as [Hout1 Hin1].
    { intros key testCase Hin. destruct (Hcounted key testCase Hin) as (c & Hc & Hmax).
      exists c. split; [done|]. cbn [length] in Hmax. lia. }
    destruct (foldl _ (true, stats) testCases) as [flag stats1]. cbn [snd] in Hout1, Hin1.
    assert (Hcounted1 : ∀ (key : string) (testCase : string → bool) (c : Z),
              (key, testCase) ∈ testCases → counted stats key c →
              counted stats1 key (c + if testCase (path t) then 1 else 0)).
    { intros key testCase c Hin Hc. split.
      - destruct Hc as [Hc _]. destruct (testCase (path t)); lia.
      - left. by apply Hin1. }
    destruct (IH stats1 Hnodup) as (Hout2 & _ & Hin2).
    { intros key testCase Hin. destruct (Hcounted key testCase Hin) as (c & Hc & Hmax).
      exists (c + if testCase (path t) then 1 else 0). split; [by apply Hcounted1|].
      cbn [length] in Hmax. destruct (testCase (path t)); lia. }
    destruct (filter_paths testCases allPaths stats1) as [kept stats2] eqn:Hrest.
    cbn [snd] in Hout2, Hin2 |- *.
    split; [|split; [done|]].
    + intros key Hnotin. by rewrite Hout2, Hout1.
    + intros _ key testCase c Hin Hc.
      rewrite passing_cons.
      destruct allPaths as [|t' allPaths].
      * cbn in Hrest. injection Hrest as _ <-.
        rewrite (Hin1 key testCase c Hin Hc). unfold passing. cbn.
        destruct (testCase (path t)); do 2 f_equal; lia.
      * rewrite (Hin2 ltac:(done) key testCase _ Hin (Hcounted1 key testCase c Hin Hc)).
        destruct (testCase (path t)); do 2 f_equal; lia.
Qed.

Section WithEnv.
Context {env : Env}.

Lemma testCases_NoDup context testPathPattern :
  NoDup (testCases_of (constructor context) testPathPattern).*1.
Proof.
  unfold testCases_of, constructor. cbn [_testPathCases].
  destruct testPathPattern as [pattern|]; [destruct (bool_decide (pattern = ""))|];
    cbn; apply (bool_decide_unpack _); by vm_compute.
Qed.

Lemma testCases_forallb this testPathPattern p :
  forallb (λ '(key, testCase), testCase p) (testCases_of this testPathPattern)
  = isTestFilePath this p && passes_pattern testPathPattern p.
Proof.
  unfold testCases_of, isTestFilePath, passes_pattern. rewrite forallb_app. f_equal.
  destruct testPathPattern as [pattern|]; [|done].
  destruct (bool_decide (pattern = "")); [done|]. cbn. by rewrite andb_true_r.
Qed.

Lemma passing_le testCase allPaths : (passing testCase allPaths ≤ length allPaths)%nat.
Proof. apply List.filter_length_le. Qed.

Lemma selected_le_passing (testCases : list (string * (string → bool))) key testCase allPaths :
  (key, testCase) ∈ testCases →
  (length (List.filter (λ t, forallb (λ '(key, testCase), testCase (path t)) testCases)
             allPaths)
   ≤ passing testCase allPaths)%nat.
Proof.
  intros Hin. unfold passing. induction allPaths as [|t allPaths IH]; [done|].
  cbn [List.filter].
  destruct (forallb _ testCases) eqn:Hall.
  - rewrite forallb_forall in Hall.
    assert (testCase (path t) = true) as ->.
    { apply (Hall (key, testCase)). by apply list_elem_of_In. }
    cbn. lia.
  - destruct (testCase (path t)); cbn; lia.
Qed.

(** The tests and the total of [_filterTestPathsWithStats]. *)
Lemma filtered_tests (this : t) (allPaths : list Test)
    (testPathPattern : option string) :
  tests (_filterTestPathsWithStats this allPaths testPathPattern) =
    List.filter (λ t, isTestFilePath this (path t) && passes_pattern testPathPattern (path t))
      allPaths ∧
  total (_filterTestPathsWithStats this allPaths testPathPattern)
    = Some (Fin (Z.of_nat (length allPaths))).
Proof.
  unfold _filterTestPathsWithStats.
  pose proof (filter_paths_tests (testCases_of this testPathPattern) allPaths ∅) as Htests.
  destruct (filter_paths _ allPaths ∅) as [kept stats']. cbn [fst] in Htests.
  cbn [tests total]. split; [|done].
  rewrite Htests. apply List.filter_ext. intros t. apply testCases_forallb.
Qed.

(** X8.  [_filterTestPathsWithStats] returns, in their order, the paths
    that are test files and pass the pattern, when one is given and not
    empty; [total] is the number of paths it was given. *)
Theorem filter_selects_test_files (this : t) (allPaths : list Test)
    (testPathPattern : option string) :
  tests (_filterTestPathsWithStats this allPaths testPathPattern) =
    List.filter (λ t, isTestFilePath this (path t) && passes_pattern testPathPattern (path t))
      allPaths ∧
  total (_filterTestPathsWithStats this allPaths testPathPattern)
    = Some (Fin (Z.of_nat (length allPaths))).
Proof. apply filtered_tests. Qed.

(** The statistics of [_filterTestPathsWithStats]. *)
Lemma filtered_stats (context : Context) (allPaths : list Test)
    (testPathPattern : option string) :
  Z.of_nat (length allPaths) ≤ MAX_EXACT →
  let this := constructor context in
  let testCases := testCases_of this testPathPattern in
  ∃ st,
    stats (_filterTestPathsWithStats this allPaths testPathPattern) = Some st ∧
    (allPaths = [] → st = ∅) ∧
    (∀ key, key ∉ (testCases.*1 : list string) → st !! key = None) ∧
    (allPaths ≠ [] →
     ∀ key testCase, (key, testCase) ∈ testCases →
       st !! key = Some (Fin (Z.of_nat (passing testCase allPaths)))).
Proof.
  intros Hlen. cbv zeta. unfold _filterTestPathsWithStats.
  destruct (filter_paths_stats (testCases_of (constructor context) testPathPattern)
              allPaths ∅ (testCases_NoDup context testPathPattern))
    as (Hout & Hnil & Hin).
  { intros key testCase _. exists 0. split; [|lia]. split; [done|]. by right. }
  destruct (filter_paths _ allPaths ∅) as [kept st]. cbn [snd] in Hout, Hnil, Hin.
  exists st. cbn [stats]. split; [done|]. split; [done|]. split.
  - intros key Hkey. by rewrite Hout.
  - intros Hne key testCase Hcase.
    rewrite (Hin Hne key testCase 0 Hcase); [done|].
    split; [done | by right].
Qed.

(** X9.  The statistics of [_filterTestPathsWithStats] on a search source
    as built: for each case tried, the number of paths that pass it, and
    nothing under any other key; for no path at all, no statistic at
    all. *)
Theorem stats_count_passing (context : Context) (allPaths : list Test)
    (testPathPattern : option string) :
  Z.of_nat (length allPaths) ≤ MAX_EXACT →
  let this := constructor context in
  let testCases := testCases_of this testPathPattern in
  ∃ st,
    stats (_filterTestPathsWithStats this allPaths testPathPattern) = Some st ∧
    (allPaths = [] → st = ∅) ∧
    (∀ key, key ∉ testCases.*1 → st !! key = None) ∧
    (allPaths ≠ [] →
     ∀ key testCase, (key, testCase) ∈ testCases →
       st !! key = Some (Fin (Z.of_nat (passing testCase allPaths)))).
Proof. apply filtered_stats. Qed.

(** X10.  No statistic is below the number of tests selected, and none is
    above the total. *)
Theorem stats_between_selected_and_total (context : Context) (allPaths : list Test)
    (testPathPattern : option string) (st : gmap string number) (key : string)
    (n : number) :
  Z.of_nat (length allPaths) ≤ MAX_EXACT →
  let found := _filterTestPathsWithStats (constructor context) allPaths testPathPattern in
  stats found = Some st →
  st !! key = Some n →
  ∃ c, n = Fin c ∧ Z.of_nat (length (tests found)) ≤ c ≤ Z.of_nat (length allPaths).
Proof.
  intros Hlen. cbv zeta. intros Hst Hkey.
  destruct (filtered_stats context allPaths testPathPattern Hlen)
    as (st' & Hst' & Hnil & Hout & Hin).
  rewrite Hst in Hst'. injection Hst' as <-.
  destruct allPaths as [|t allPaths].
  { rewrite (Hnil eq_refl) in Hkey. by rewrite lookup_empty in Hkey. }
  destruct (decide (key ∈ (testCases_of (constructor context) testPathPattern).*1))
    as [Hk | Hk]; [|by rewrite (Hout key Hk) in Hkey].
  apply list_elem_of_fmap in Hk as [[key' testCase] [-> Hcase]]. cbn [fst] in Hkey.
  rewrite (Hin ltac:(done) _ _ Hcase) in Hkey. injection Hkey as <-.
  eexists. split; [done|].
  destruct (filtered_tests (constructor context) (t :: allPaths) testPathPattern)
    as [Htests _].
  rewrite Htests.
  pose proof (passing_le testCase (t :: allPaths)).
  pose proof (selected_le_passing _ _ _ (t :: allPaths) Hcase) as Hsel.
  erewrite List.filter_ext in Hsel; [|intros t'; apply testCases_forallb].
  lia.
Qed.

(** X11.  With no [testMatch] globs, no [testRegex] and no ignore pattern,
    the test files are the paths under one of the roots. *)
Theorem no_filter_configured (context : Context) (p : string) :
  (testMatch (config context) = None ∨ testMatch (config context) = Some []) →
  testRegex (config context) = [] →
  testPathIgnorePatterns (config context) = [] →
  isTestFilePath (constructor context) p =
    test (RegExp (join "|" (map (λ dir, escapePathForRegex (dir +:+ path_sep))
                              (roots (config context))))) p.
Proof.
  intros Hmatch Hregex Hignore.
  unfold isTestFilePath, constructor. cbn [_testPathCases forallb].
  rewrite Hregex, Hignore. unfold regexToMatcher. cbn.
  destruct Hmatch as [-> | ->]; cbn; by rewrite !andb_true_r.
Qed.

(** X12.  [findMatchingTests] returns the files of the haste map that are
    test files and pass the pattern, in the order of the haste map; with
    the empty pattern, all the test files. *)
Theorem findMatchingTests_from_haste (this : t) (testPathPattern : string) :
  tests (findMatchingTests this testPathPattern) =
    toTests (_context this)
      (List.filter (λ p, isTestFilePath this p && passes_pattern (Some testPathPattern) p)
         (getAllFiles (_context this))) ∧
  tests (findMatchingTests this "") =
    toTests (_context this)
      (List.filter (isTestFilePath this) (getAllFiles (_context this))) ∧
  total (findMatchingTests this testPathPattern)
    = Some (Fin (Z.of_nat (length (getAllFiles (_context this))))).
Proof.
  assert (Hgen : ∀ pattern,
    tests (findMatchingTests this pattern) =
      toTests (_context this)
        (List.filter (λ p, isTestFilePath this p && passes_pattern (Some pattern) p)
           (getAllFiles (_context this)))).
  { intros pattern. unfold findMatchingTests, _getAllTestPaths.
    destruct (filtered_tests this
                (toTests (_context this) (getAllFiles (_context this))) (Some pattern))
      as [-> _].
    unfold toTests. induction (getAllFiles (_context this)) as [|p files IH]; [done|].
    cbn [map List.filter path]. destruct (_ && _); cbn [map]; by rewrite IH. }
  split; [apply Hgen|]. split.
  - rewrite Hgen. f_equal. apply List.filter_ext. intros p. cbn. by rewrite andb_true_r.
  - unfold findMatchingTests, _getAllTestPaths.
    destruct (filtered_tests this
                (toTests (_context this) (getAllFiles (_context this)))
                (Some testPathPattern)) as [_ ->].
    unfold toTests. by rewrite length_map.
Qed.

End WithEnv.

Lemma stats_count_passing_witness :
  ∃ st,
    stats (_filterTestPathsWithStats (env := example_env)
             (constructor (env := example_env) example_context)
             (toTests example_context (getAllFiles example_context)) None) = Some st ∧
    st !! "testMatch" = Some (Fin 3) ∧
    st !! "testRegex" = Some (Fin 4) ∧
    st !! "testPathPattern" = None.
Proof.
  destruct (stats_count_passing (env := example_env) example_context
              (toTests example_context (getAllFiles example_context)) None)
    as (st & Hst & _ & Hout & Hin); [by vm_compute|].
  exists st. split; [exact Hst|].
  split; [|split].
  - apply (Hin ltac:(done) "testMatch"
             (globsToMatcher (env := example_env) (Some [".test.js"]))).
    right. by left.
  - apply (Hin ltac:(done) "testRegex" (regexToMatcher (env := example_env) [])).
    right. right. right. by left.
  - apply Hout. apply (bool_decide_unpack _). by vm_compute.
Defined.

Lemma stats_between_selected_and_total_witness :
  ∃ c, Fin 3 = Fin c ∧ 1 ≤ c ≤ 4.
Proof.
  apply (stats_between_selected_and_total (env := example_env) example_context
           (toTests example_context (getAllFiles example_context)) None
           (default ∅
              (stats (_filterTestPathsWithStats (env := example_env)
                        (constructor (env := example_env) example_context)
                        (toTests example_context (getAllFiles example_context)) None)))
           "testMatch" (Fin 3)); by vm_compute.
Defined.

Lemma no_filter_configured_witness :
  isTestFilePath (env := example_env)
    (constructor (env := example_env)
       {| config := {| roots := ["/project"]; testMatch := None;
                       testPathIgnorePatterns := []; testRegex := [] |};
          getAllFiles := [] |})
    "/project/node_modules/b.js" = true.
Proof.
  rewrite (no_filter_configured (env := example_env)); [reflexivity | by left | done | done].
Defined.

End SearchSourceFacts.

(** * Running jest on a directory *)

Module RunJestFacts.
Import RunJest.

Section WithEnv.
Context {host : Env}.

Lemma runJest_missing dir args options :
  let dir' := if path_isAbsolute dir then dir else path_resolve __dirname dir in
  negb (truthy_bool (skipPkgJsonCheck options))
    && negb (fs_existsSync (path_resolve dir' "package.json")) = true →
  runJest dir args options =
    (Throw (VObject (new_Error (no_package_json (path_resolve dir' "package.json")))), []).
Proof.
  cbv zeta. intros Hmissing. unfold runJest.
  destruct (path_isAbsolute dir); cbn [negb] in *; by rewrite Hmissing.
Qed.

Lemma runJest_found dir args options :
  let dir' := if path_isAbsolute dir then dir else path_resolve __dirname dir in
  negb (truthy_bool (skipPkgJsonCheck options))
    && negb (fs_existsSync (path_resolve dir' "package.json")) = false →
  ∃ r, runJest dir args options =
         (Normal r,
          [{| file := JEST_PATH; arguments := default [] args;
              spawn_options := {| cwd := dir'; env := child_env options;
                                  reject := false |} |}]) ∧
       status r = code (result r).
Proof.
  cbv zeta. intros Hfound. unfold runJest.
  destruct (path_isAbsolute dir); cbn [negb] in *; rewrite Hfound; by eexists.
Qed.

(** X13.  [runJest] and [json] start jest once or not at all.  When the
    check of [package.json] is not skipped and the file is missing, they
    throw before anything is started.  Otherwise each starts jest exactly
    once, in the directory given (resolved against [__dirname] when it is
    relative), with the arguments given, to which [json] adds [--json] at
    the end; [json] has started it even when it then throws because the
    output is no JSON. *)
Theorem jest_started_once_or_not_at_all (dir : string) (args : option (list string))
    (options : RunJestOptions) :
  let dir' := if path_isAbsolute dir then dir else path_resolve __dirname dir in
  let missing := negb (truthy_bool (skipPkgJsonCheck options))
                 && negb (fs_existsSync (path_resolve dir' "package.json")) in
  let started arguments :=
    [{| file := JEST_PATH; arguments := arguments;
        spawn_options := {| cwd := dir'; env := child_env options; reject := false |} |}] in
  if missing then
    (∃ exn, runJest dir args options = (Throw exn, []) ∧
            json dir args options = (Throw exn, []))
  else
    (∃ r, runJest dir args options = (Normal r, started (default [] args))) ∧
    (json dir args options).2 = started (default [] args ++ ["--json"])%list.
Proof.
  cbv zeta.
  destruct (negb (truthy_bool (skipPkgJsonCheck options)) && _) eqn:Hmissing.
  - eexists. split; [by apply runJest_missing|].
    unfold json. by rewrite runJest_missing.
  - split.
    + destruct (runJest_found dir args options Hmissing) as (r & -> & _). by eexists.
    + unfold json.
      destruct (runJest_found dir (Some (default [] args ++ ["--json"])%list) options Hmissing)
        as (r & -> & _).
      destruct (JSON_parse _) as [parsed | [name message]]; done.
Qed.

(** X14.  The environment of the child is that of the process, except that
    [FORCE_COLOR] is [0] whatever the process has, and that [NODE_PATH] is
    [options.nodePath] when that is given and not empty. *)
Theorem child_env_lookup (options : RunJestOptions) (variable : string) :
  child_env options !! variable =
    if bool_decide (variable = "NODE_PATH") && truthy_string (nodePath options)
    then VStr <$> nodePath options
    else if bool_decide (variable = "FORCE_COLOR") then Some (VNum (Fin 0))
    else process_env !! variable.
Proof.
  unfold child_env.
  destruct (nodePath options) as [p|] eqn:Hp; cbn [truthy_string].
  - destruct (negb (bool_decide (p = ""))); cbn [default from_option fmap option_fmap option_map].
    + case_bool_decide as Hv; cbn [andb].
      * subst. by rewrite lookup_insert_eq.
      * rewrite lookup_insert_ne by done.
        case_bool_decide as Hf; [subst; by rewrite lookup_insert_eq|].
        by rewrite lookup_insert_ne.
    + rewrite andb_false_r.
      case_bool_decide as Hf; [subst; by rewrite lookup_insert_eq|].
      by rewrite lookup_insert_ne.
  - rewrite andb_false_r.
    case_bool_decide as Hf; [subst; by rewrite lookup_insert_eq|].
    by rewrite lookup_insert_ne.
Qed.

End WithEnv.

End RunJestFacts.
